(** * fabulous.logs: the transient stream handler

    A shallow embedding of [src/fabulous/logs.py] (class
    [TransientStreamHandler]) and the properties of its two write
    paths.

    Conventions of the model.
    - A Python 2 string is a [list ascii], one [ascii] per character;
      [len] is Python's [len] as an integer.  Strings are of one kind: the
      coercions between [str] and [unicode] inside [%], and the
      [UnicodeError] they can raise, are outside the model;
      [UnicodeError] comes from the stream and from [encode].
    - [s.encode("UTF-8")] depends on the kind of [s] and may raise: it is
      a parameter ([encode_utf8]) that gives the encoded text or the
      exception; [encode_str] and [encode_unicode] are the two kinds.
    - Python integers are [Z].
    - An exception aborts the rest of the call but keeps the mutations made
      before it: a computation is a function from the handler to the new
      handler and either a value or the exception raised.
    - [self.stream] is an external object: its behaviour is a parameter
      ([stream_raises]), and the handler keeps the history of the calls
      made on it.
    - [utils.term.width] is read from another module at each call: it is
      an argument ([term_width]) of the two write paths. *)

From Stdlib Require Import ZArith Lia Bool Ascii String Decimal DecimalNat List.
Import ListNotations.

Open Scope Z_scope.

(** ** Python strings *)

Definition pystr := list ascii.

(** A source literal without control characters. *)
Definition lit (s : string) : pystr := list_ascii_of_string s.

Definition CR : ascii := "013"%char.
Definition LF : ascii := "010"%char.
Definition SP : ascii := " "%char.
Definition PCT : ascii := "%"%char.
Definition DQUOTE : ascii := "034"%char.

Definition len (s : pystr) : Z := Z.of_nat (length s).

(** [s[:k]]: a negative [k] counts from the end. *)
Definition slice_to (s : pystr) (k : Z) : pystr :=
  if k <? 0 then firstn (Z.to_nat (len s + k)) s
  else firstn (Z.to_nat k) s.

(** [str.isspace] on one character of a [str]. *)
Definition is_space (c : ascii) : bool :=
  let n := nat_of_ascii c in
  Nat.eqb n 32 || (Nat.leb 9 n && Nat.leb n 13).

(** [s.rstrip()] *)
Fixpoint rstrip (s : pystr) : pystr :=
  match s with
  | [] => []
  | c :: s' =>
      match rstrip s' with
      | [] => if is_space c then [] else [c]
      | r => c :: r
      end
  end.

(** [s.split('\n')] *)
Fixpoint split_lines (s : pystr) : list pystr :=
  match s with
  | [] => [[]]
  | c :: s' =>
      if Ascii.eqb c LF then [] :: split_lines s'
      else match split_lines s' with
           | l :: ls => (c :: l) :: ls
           | [] => [[c]]
           end
  end.

Definition digit_char (n : nat) : ascii := ascii_of_nat (48 + n).

Fixpoint uint_chars (d : uint) : pystr :=
  match d with
  | Nil => []
  | D0 d => digit_char 0 :: uint_chars d
  | D1 d => digit_char 1 :: uint_chars d
  | D2 d => digit_char 2 :: uint_chars d
  | D3 d => digit_char 3 :: uint_chars d
  | D4 d => digit_char 4 :: uint_chars d
  | D5 d => digit_char 5 :: uint_chars d
  | D6 d => digit_char 6 :: uint_chars d
  | D7 d => digit_char 7 :: uint_chars d
  | D8 d => digit_char 8 :: uint_chars d
  | D9 d => digit_char 9 :: uint_chars d
  end.

(** [str(n)] for an integer [n]. *)
Definition str (n : Z) : pystr :=
  if n <? 0 then "-"%char :: uint_chars (Nat.to_uint (Z.abs_nat n))
  else uint_chars (Nat.to_uint (Z.to_nat n)).

(** ** Exceptions *)

(** [UnicodeError] stands for the class and its subclasses. *)
Inductive exn : Type :=
| KeyboardInterrupt
| SystemExit
| UnicodeError
| TypeError
| ValueError
| KeyError
| OtherException (name : string).

Inductive result (A : Type) : Type :=
| Ok (a : A)
| Raise (e : exn).
Arguments Ok {A} a.
Arguments Raise {A} e.

(** ** The [%] operator, [fmt % arg] for one [str] argument

    The interpreter follows CPython 2's [PyString_Format] when the right
    operand is a single [str]: literal characters are copied; after a
    percent sign come flags, a width, a precision, a length modifier and
    the conversion character.  Every conversion but [%%] takes the next
    argument, and there is only one.  Integers are unbounded here, so the
    interpreter's overflow guards on width and precision are absent. *)

Definition pad (ljust : bool) (width : nat) (s : pystr) : pystr :=
  if ljust then s ++ repeat SP (width - length s)
  else repeat SP (width - length s) ++ s.

Definition clip (prec : option nat) (s : pystr) : pystr :=
  match prec with
  | Some p => firstn p s
  | None => s
  end.

Definition hex_digit (n : nat) : ascii :=
  if Nat.ltb n 10 then ascii_of_nat (48 + n) else ascii_of_nat (87 + n).

(** [repr(s)] of a [str]. *)
Definition repr_char (quote c : ascii) : pystr :=
  let n := nat_of_ascii c in
  if Ascii.eqb c quote || Ascii.eqb c "\"%char then ["\"%char; c]
  else if Nat.eqb n 9 then lit "\t"
  else if Nat.eqb n 10 then lit "\n"
  else if Nat.eqb n 13 then lit "\r"
  else if Nat.ltb n 32 || Nat.leb 127 n
       then lit "\x" ++ [hex_digit (Nat.div n 16); hex_digit (Nat.modulo n 16)]
  else [c].

Definition has_char (c : ascii) (s : pystr) : bool :=
  existsb (Ascii.eqb c) s.

Definition repr (s : pystr) : pystr :=
  let quote :=
    if has_char "'"%char s && negb (has_char DQUOTE s)
    then DQUOTE else "'"%char in
  quote :: flat_map (repr_char quote) s ++ [quote].

Definition is_digit (c : ascii) : option nat :=
  let n := nat_of_ascii c in
  if Nat.leb 48 n && Nat.leb n 57 then Some (n - 48)%nat else None.

Definition is_flag (c : ascii) : bool :=
  existsb (Ascii.eqb c) (lit "-+ #0").

Definition is_length_modifier (c : ascii) : bool :=
  existsb (Ascii.eqb c) (lit "hlL").

(** Where the interpreter is inside a format string. *)
Inductive fstate : Type :=
| FText
| FFirst
| FFlags (ljust : bool)
| FWidth (ljust : bool) (width : nat)
| FDot (ljust : bool) (width : nat)
| FPrec (ljust : bool) (width : nat) (prec : nat)
| FConv (ljust : bool) (width : nat) (prec : option nat).

Definition emit_then (out : pystr) (r : result pystr) : result pystr :=
  match r with
  | Ok s => Ok (out ++ s)
  | Raise e => Raise e
  end.

(** The conversion character [c] applied to the argument. *)
Definition convert (c : ascii) (arg : pystr) (prec : option nat)
  : result pystr :=
  if Ascii.eqb c "s"%char then Ok (clip prec arg)
  else if Ascii.eqb c "r"%char then Ok (clip prec (repr arg))
  else if Ascii.eqb c "c"%char then
    match arg with
    | [_] => Ok arg
    | _ => Raise TypeError
    end
  else if existsb (Ascii.eqb c) (lit "diouxXeEfFgG") then Raise TypeError
  else Raise ValueError.

Section Format.
Variable arg : pystr.

(** [go] is the tail of the format string after the character in hand. *)
Definition conversion (go : fstate -> bool -> result pystr)
    (used ljust : bool) (width : nat) (prec : option nat) (c : ascii)
  : result pystr :=
  if Ascii.eqb c PCT then emit_then (pad ljust width [PCT]) (go FText used)
  else if used then Raise TypeError
  else match convert c arg prec with
       | Ok s => emit_then (pad ljust width s) (go FText true)
       | Raise e => Raise e
       end.

Definition after_prec (go : fstate -> bool -> result pystr)
    (used ljust : bool) (width : nat) (prec : option nat) (c : ascii)
  : result pystr :=
  if is_length_modifier c then go (FConv ljust width prec) used
  else conversion go used ljust width prec c.

Definition after_width (go : fstate -> bool -> result pystr)
    (used ljust : bool) (width : nat) (c : ascii) : result pystr :=
  if Ascii.eqb c "."%char then go (FDot ljust width) used
  else after_prec go used ljust width None c.

Definition after_flags (go : fstate -> bool -> result pystr)
    (used ljust : bool) (c : ascii) : result pystr :=
  if Ascii.eqb c "*"%char then Raise TypeError
  else match is_digit c with
       | Some d => go (FWidth ljust d) used
       | None => after_width go used ljust 0%nat c
       end.

Definition in_flags (go : fstate -> bool -> result pystr)
    (used ljust : bool) (c : ascii) : result pystr :=
  if is_flag c then go (FFlags (ljust || Ascii.eqb c "-"%char)) used
  else after_flags go used ljust c.

Fixpoint format_from (fmt : pystr) (st : fstate) (used : bool)
  : result pystr :=
  match fmt with
  | [] =>
      match st with
      | FText => if used then Ok [] else Raise TypeError
      | _ => Raise ValueError
      end
  | c :: rest =>
      let go := format_from rest in
      match st with
      | FText =>
          if Ascii.eqb c PCT then go FFirst used
          else emit_then [c] (go FText used)
      | FFirst =>
          if Ascii.eqb c "("%char then Raise TypeError
          else in_flags go used false c
      | FFlags lj => in_flags go used lj c
      | FWidth lj w =>
          match is_digit c with
          | Some d => go (FWidth lj (10 * w + d)%nat) used
          | None => after_width go used lj w c
          end
      | FDot lj w =>
          if Ascii.eqb c "*"%char then Raise TypeError
          else match is_digit c with
               | Some d => go (FPrec lj w d) used
               | None => after_prec go used lj w (Some 0%nat) c
               end
      | FPrec lj w p =>
          match is_digit c with
          | Some d => go (FPrec lj w (10 * p + d)%nat) used
          | None => after_prec go used lj w (Some p) c
          end
      | FConv lj w p => conversion go used lj w p c
      end
  end.
End Format.

(** [fmt % arg] *)
Definition py_format (fmt arg : pystr) : result pystr :=
  format_from arg fmt FText false.

(** ** The handler and its stream *)

Inductive stream_op : Type :=
| SWrite (s : pystr)
| SFlush.

(** One call on [self.stream], with how it ended. *)
Inductive event : Type :=
| Done (op : stream_op)
| Failed (op : stream_op) (e : exn).

(** The fields of a [TransientStreamHandler]; [stream] is the history of
    the calls made on [self.stream], [errors] the exceptions handed to
    [handleError]. *)
Record handler : Type := mkHandler {
  levelno : Z;
  need_cr : bool;
  last : pystr;
  stream : list event;
  errors : list exn
}.

Definition set_need_cr (b : bool) (h : handler) : handler :=
  mkHandler (levelno h) b (last h) (stream h) (errors h).

Definition set_last (s : pystr) (h : handler) : handler :=
  mkHandler (levelno h) (need_cr h) s (stream h) (errors h).

Definition log_event (ev : event) (h : handler) : handler :=
  mkHandler (levelno h) (need_cr h) (last h) (stream h ++ [ev]) (errors h).

Definition log_error (e : exn) (h : handler) : handler :=
  mkHandler (levelno h) (need_cr h) (last h) (stream h) (errors h ++ [e]).

(** The characters the stream has accepted, in order. *)
Fixpoint written (evs : list event) : pystr :=
  match evs with
  | [] => []
  | Done (SWrite s) :: evs' => s ++ written evs'
  | _ :: evs' => written evs'
  end.


(** *** Computations that mutate the handler and may raise *)

Definition M (A : Type) : Type := handler -> handler * result A.

Definition ret {A} (a : A) : M A := fun h => (h, Ok a).

Definition bind {A B} (m : M A) (k : A -> M B) : M B :=
  fun h =>
    match m h with
    | (h', Ok a) => k a h'
    | (h', Raise e) => (h', Raise e)
    end.

Notation "x <- m ;; k" := (bind m (fun x => k))
  (at level 61, m at next level, right associativity).
Notation "m ;; k" := (bind m (fun _ => k))
  (at level 61, right associativity).

Definition get : M handler := fun h => (h, Ok h).

Definition modify (f : handler -> handler) : M unit := fun h => (f h, Ok tt).

Definition lift {A} (r : result A) : M A := fun h => (h, r).

(** [try: body / except UnicodeError: fallback] *)
Definition try_except_unicode {A} (body fallback : M A) : M A :=
  fun h =>
    match body h with
    | (h', Raise UnicodeError) => fallback h'
    | r => r
    end.

(** [for x in xs: body(x)] *)
Fixpoint for_each {A} (xs : list A) (body : A -> M unit) : M unit :=
  match xs with
  | [] => ret tt
  | x :: xs' => body x ;; for_each xs' body
  end.

(** [logging._levelNames], the names to numbers. *)
Definition _levelNames (name : string) : option Z :=
  if String.eqb name "CRITICAL" then Some 50
  else if String.eqb name "ERROR" then Some 40
  else if String.eqb name "WARN" then Some 30
  else if String.eqb name "WARNING" then Some 30
  else if String.eqb name "INFO" then Some 20
  else if String.eqb name "DEBUG" then Some 10
  else if String.eqb name "NOTSET" then Some 0
  else None.

Definition WARNING : Z := 30.
Definition DEBUG : Z := 10.

Inductive level_arg : Type :=
| LevelNo (n : Z)
| LevelName (name : string).

(** [TransientStreamHandler.__init__], on a stream nothing was written to. *)
Definition init (level : level_arg) : result handler :=
  match level with
  | LevelNo n => Ok (mkHandler n false [] [] [])
  | LevelName name =>
      match _levelNames name with
      | Some n => Ok (mkHandler n false [] [] [])
      | None => Raise KeyError
      end
  end.

Section Handler.
(** What [self.stream] does with a call, given the calls before it:
    [None] when it accepts, [Some e] when it raises [e]. *)
Variable stream_raises : list event -> stream_op -> option exn.

(** [s.encode("UTF-8")]: the encoded text, or the exception the encoding
    raises. *)
Variable encode_utf8 : pystr -> result pystr.

Definition stream_call (op : stream_op) : M unit :=
  fun h =>
    match stream_raises (stream h) op with
    | None => (log_event (Done op) h, Ok tt)
    | Some e => (log_event (Failed op e) h, Raise e)
    end.

Definition stream_write (s : pystr) : M unit := stream_call (SWrite s).
Definition stream_flush : M unit := stream_call SFlush.

(** [self.stream.write(fmt % (data))] *)
Definition write_formatted (fmt data : pystr) : M unit :=
  text <- lift (py_format fmt data) ;;
  stream_write text.

(** [fmt % (data.encode("UTF-8"))]: the encoding comes first. *)
Definition format_encoded (fmt data : pystr) : result pystr :=
  match encode_utf8 data with
  | Ok encoded => py_format fmt encoded
  | Raise e => Raise e
  end.

(** [self.stream.write(fmt % (data.encode("UTF-8")))] *)
Definition write_encoded (fmt data : pystr) : M unit :=
  text <- lift (format_encoded fmt data) ;;
  stream_write text.

(** [logging.StreamHandler.close(self)] touches none of the fields. *)
Definition parent_close : M unit := ret tt.

(** [TransientStreamHandler.close] *)
Definition close : M unit :=
  h <- get ;;
  (if need_cr h
   then stream_write [LF] ;; modify (set_need_cr false)
   else ret tt) ;;
  parent_close.

(** The format string [fmt] that [write] builds: lines 78-82. *)
Definition write_fmt (term_width : Z) (data : pystr) (h : handler) : pystr :=
  if need_cr h then
    let width := Z.max (Z.min term_width (len (last h))) (len data) in
    CR :: lit "%-" ++ str width ++ lit "s" ++ [LF] ++ last h
  else
    lit "%s" ++ [LF].

(** [TransientStreamHandler.write] *)
Definition write (term_width : Z) (data : pystr) : M unit :=
  h <- get ;;
  let fmt := write_fmt term_width data h in
  try_except_unicode
    (write_formatted fmt data)
    (write_encoded fmt data).

(** The line as it is displayed: lines 96-97. *)
Definition shorten (width : Z) (line : pystr) : pystr :=
  if len line >? width then slice_to line (width - 3) ++ lit "..."
  else line.

(** The body of the loop of [transient_write]. *)
Definition transient_write_line (width : Z) (line : pystr) : M unit :=
  match line with
  | _ :: _ =>
      let line := shorten width line in
      h <- get ;;
      let line_width := Z.max (Z.min width (len (last h))) (len line) in
      let fmt := lit "%-" ++ str line_width ++ lit "s" in
      modify (set_last line) ;;
      try_except_unicode
        (write_formatted fmt line)
        (write_encoded fmt line)
  | [] =>
      stream_write [CR] ;;
      stream_flush
  end.

(** [TransientStreamHandler.transient_write] *)
Definition transient_write (term_width : Z) (data : pystr) : M unit :=
  h <- get ;;
  (if need_cr h
   then stream_write [CR]
   else modify (set_need_cr true)) ;;
  let width := term_width in
  for_each (split_lines (rstrip data)) (transient_write_line width).

Section Emit.
(** A [logging.LogRecord], its [levelno] and [self.format]. *)
Variable LogRecord : Type.
Variable record_levelno : LogRecord -> Z.
Variable format : LogRecord -> result pystr.

(** [logging.Handler.handleError], called while [e] is being handled. *)
Definition handleError (e : exn) : M unit := modify (log_error e).

Definition emit_body (term_width : Z) (record : LogRecord) : M unit :=
  msg <- lift (format record) ;;
  h <- get ;;
  if record_levelno record >=? levelno h
  then write term_width msg
  else transient_write term_width msg.

(** [TransientStreamHandler.emit] *)
Definition emit (term_width : Z) (record : LogRecord) : M unit :=
  fun h =>
    match emit_body term_width record h with
    | (h', Raise KeyboardInterrupt) => (h', Raise KeyboardInterrupt)
    | (h', Raise SystemExit) => (h', Raise SystemExit)
    | (h', Raise e) => handleError e h'
    | r => r
    end.
End Emit.
End Handler.

(** A stream that accepts every call. *)
Definition accepting : list event -> stream_op -> option exn :=
  fun _ _ => None.

Definition is_ascii (c : ascii) : bool := Nat.ltb (nat_of_ascii c) 128.

(** [s.encode("UTF-8")] for a [str]: Python 2 first decodes the bytes as
    ASCII, which raises [UnicodeDecodeError] on a byte above 127; ASCII
    text encodes to itself. *)
Definition encode_str (s : pystr) : result pystr :=
  if forallb is_ascii s then Ok s else Raise UnicodeError.


(** A stream with the ASCII codec: it raises [UnicodeError] on a text with
    a character above 127.  The call after such a refusal is the handler's
    fallback, which sends encoded bytes; the stream takes them as they
    are when the handler holds [unicode] text, which the strings of the
    model, of one kind, cannot tell from bytes. *)
Definition ascii_stream : list event -> stream_op -> option exn :=
  fun history op =>
    match op with
    | SFlush => None
    | SWrite s =>
        if forallb is_ascii s then None
        else match List.last history (Done SFlush) with
             | Failed _ UnicodeError => None
             | _ => Some UnicodeError
             end
    end.

(** ** The terminal

    What a terminal shows of a character stream: a carriage return moves
    the cursor to column 0 of its row, a newline commits the row and starts
    an empty one at column 0, every other character overwrites the cell
    under the cursor and moves it right.  Rows do not wrap. *)

Record terminal : Type := mkTerminal {
  scrollback : list pystr;
  row : pystr;
  col : nat
}.

Definition blank : terminal := mkTerminal [] [] 0.

Fixpoint overwrite (n : nat) (c : ascii) (r : pystr) : pystr :=
  match n, r with
  | O, [] => [c]
  | O, _ :: r' => c :: r'
  | S n', [] => SP :: overwrite n' c []
  | S n', x :: r' => x :: overwrite n' c r'
  end.

Definition put (t : terminal) (c : ascii) : terminal :=
  if Ascii.eqb c CR then mkTerminal (scrollback t) (row t) 0
  else if Ascii.eqb c LF then mkTerminal (scrollback t ++ [row t]) [] 0
  else mkTerminal (scrollback t) (overwrite (col t) c (row t)) (S (col t)).

Definition feed (t : terminal) (s : pystr) : terminal := fold_left put s t.

(** What is visible: the rows, not the cursor. *)
Definition visible (t : terminal) : list pystr * pystr :=
  (scrollback t, row t).

(** The terminal after everything the handler's stream accepted. *)
Definition screen (h : handler) : terminal := feed blank (written (stream h)).

(** A line of text: no newline and no carriage return in it. *)
Definition plain (s : pystr) : Prop := ~ In CR s /\ ~ In LF s.

(** ** Runs *)

(** Transient writes of [msgs], one after the other, at width [term_width]. *)
Definition transient_run (stream_raises : list event -> stream_op -> option exn)
    (encode_utf8 : pystr -> result pystr) (term_width : Z) (msgs : list pystr)
    (h : handler) : handler :=
  fold_left
    (fun h m => fst (transient_write stream_raises encode_utf8 term_width m h))
    msgs h.

(** The records [records] emitted one after the other; an exception that
    leaves [emit] does not stop the caller here. *)
Definition emit_run (stream_raises : list event -> stream_op -> option exn)
    (encode_utf8 : pystr -> result pystr) (LogRecord : Type)
    (record_levelno : LogRecord -> Z) (format : LogRecord -> result pystr)
    (term_width : Z) (records : list LogRecord) (h : handler) : handler :=
  fold_left
    (fun h r =>
       fst (emit stream_raises encode_utf8 LogRecord record_levelno format
              term_width r h))
    records h.

(** A record that is its level and its message, formatted as the message. *)
Definition plain_record : Type := Z * pystr.

Definition emit_plain (encode_utf8 : pystr -> result pystr) (term_width : Z)
    (record : plain_record) : M unit :=
  emit accepting encode_utf8 plain_record fst (fun r => Ok (snd r))
    term_width record.

(** A stream that raises [UnicodeError] on its first call and accepts the
    calls after it. *)
Definition rejecting_first : list event -> stream_op -> option exn :=
  fun history _ =>
    match history with
    | [] => Some UnicodeError
    | _ => None
    end.


(** A handler as [__init__] leaves it, threshold WARNING. *)
Definition fresh : handler := mkHandler WARNING false [] [] [].

(** A handler with the line "bb" pending. *)
Definition pending_bb : handler := mkHandler WARNING true (lit "bb") [] [].

(** A handler with the line "100%" pending. *)
Definition pending_percent : handler :=
  mkHandler WARNING true (lit "100%") [] [].

(** DEBUG "a" then DEBUG "bb" on a fresh handler, at width 10. *)
Definition scenario_debugs (encode_utf8 : pystr -> result pystr)
  : handler * result unit :=
  (emit_plain encode_utf8 10 (DEBUG, lit "a") ;;
   emit_plain encode_utf8 10 (DEBUG, lit "bb")) fresh.

(** The handler once [transient_write] has moved the cursor back, before
    its loop: lines 89-92 on a stream that accepts the call. *)
Definition before_lines (h : handler) : handler :=
  if need_cr h then log_event (Done (SWrite [CR])) h
  else set_need_cr true h.

(** ** Invariants of the handler with its terminal *)

(** The current row shows [last_line] and spaces after it, and nothing was
    committed above it. *)
Definition row_shows_last (h : handler) : Prop :=
  scrollback (screen h) = [] /\
  exists k : nat, row (screen h) = last h ++ repeat SP k.

(** With no line pending the cursor is at the start of its row. *)
Definition cursor_at_start (h : handler) : Prop :=
  need_cr h = false -> col (screen h) = 0%nat.

(** [last_line] is plain text that fits the terminal. *)
Definition last_fits (term_width : Z) (h : handler) : Prop :=
  plain (last h) /\ len (last h) <= term_width.

(** A message that is one non-empty line of plain text once stripped. *)
Definition one_line (msg : pystr) : Prop :=
  rstrip msg <> [] /\ plain (rstrip msg).

(** ** The specification's wording, to compare with the code *)

(** A permanent write over a pending line: carriage return, the message
    padded to at least [max(terminal_width, len(last_line))] columns,
    newline, the pending line. *)
Definition spec_permanent_output (term_width : Z) (last_line data out : pystr)
  : Prop :=
  exists k : Z,
    Z.max term_width (len last_line) <= k /\
    out = CR :: pad true (Z.to_nat k) data ++ LF :: last_line.

(** The columns a transient line is padded to. *)
Definition spec_transient_columns (term_width : Z) (last_line line : pystr) : Z :=
  Z.max term_width (Z.max (len last_line) (len line)).

(** A line longer than the terminal is shown on exactly [term_width]
    characters, the last three of them dots. *)
Definition spec_shortened (term_width : Z) (out : pystr) : Prop :=
  len out = term_width /\ exists p, out = p ++ lit "...".

(** The row shows the last message, shortened and padded, and nothing
    else. *)
Definition spec_shows_only (term_width : Z) (msg : pystr) (t : terminal) : Prop :=
  scrollback t = [] /\
  exists k : nat, row t = shorten term_width (rstrip msg) ++ repeat SP k.

(** One write of [x]; when the stream raises [UnicodeError], one write of
    the encoded text [x'] and nothing after it, unless the encoding raised:
    its exception then goes to the caller with no second write; any other
    exception of the stream goes to the caller. *)
Definition spec_write_with_fallback
    (stream_raises : list event -> stream_op -> option exn)
    (x : pystr) (x' : result pystr) : M unit :=
  fun h =>
    match stream_raises (stream h) (SWrite x) with
    | None => (log_event (Done (SWrite x)) h, Ok tt)
    | Some UnicodeError =>
        let h1 := log_event (Failed (SWrite x) UnicodeError) h in
        match x' with
        | Ok t =>
            match stream_raises (stream h1) (SWrite t) with
            | None => (log_event (Done (SWrite t)) h1, Ok tt)
            | Some e => (log_event (Failed (SWrite t) e) h1, Raise e)
            end
        | Raise e => (h1, Raise e)
        end
    | Some e => (log_event (Failed (SWrite x) e) h, Raise e)
    end.




(** The two exceptions [emit] lets through. *)
Definition terminates_process (e : exn) : bool :=
  match e with
  | KeyboardInterrupt | SystemExit => true
  | _ => false
  end.

(** ** Runs of the handler's operations *)

(** A call a user of the handler makes on it. *)
Inductive handler_op (LogRecord : Type) : Type :=
| OEmit (term_width : Z) (record : LogRecord)
| OClose.
Arguments OEmit {LogRecord} term_width record.
Arguments OClose {LogRecord}.

(** The calls [ops] one after the other, going on after an exception. *)
Definition run_ops (stream_raises : list event -> stream_op -> option exn)
    (encode_utf8 : pystr -> result pystr) (LogRecord : Type)
    (record_levelno : LogRecord -> Z) (format : LogRecord -> result pystr)
    (ops : list (handler_op LogRecord)) (h : handler) : handler :=
  fold_left
    (fun h op =>
       match op with
       | OEmit term_width record =>
           fst (emit stream_raises encode_utf8 LogRecord record_levelno
                  format term_width record h)
       | OClose => fst (close stream_raises h)
       end)
    ops h.

(** Whitespace only. *)
Definition all_space (s : pystr) : Prop := forallb is_space s = true.

(** The rows [rows] are the messages [msgs], in order, each followed by
    spaces only. *)
Definition committed (rows msgs : list pystr) : Prop :=
  Forall2 (fun r m => exists k : nat, r = m ++ repeat SP k) rows msgs.

(** The messages of the records at or above [threshold], in order. *)
Definition permanent_msgs (threshold : Z) (records : list plain_record)
  : list pystr :=
  map snd (filter (fun r => fst r >=? threshold) records).

(** A record the terminal can show on one row: a permanent message is
    plain text; a transient one is plain text once stripped and holds no
    percent sign. *)
Definition shown_on_one_row (threshold : Z) (r : plain_record) : Prop :=
  if fst r >=? threshold then plain (snd r)
  else plain (rstrip (snd r)) /\ ~ In PCT (snd r).

(** The handler and its terminal between two records: the row shows
    [last_line], which fits the terminal and holds no percent sign, and
    before the first transient write the row is still empty. *)
Definition tidy (term_width : Z) (h : handler) : Prop :=
  (exists k : nat, row (screen h) = last h ++ repeat SP k) /\
  plain (last h) /\ len (last h) <= term_width /\ ~ In PCT (last h) /\
  (need_cr h = false -> last h = [] /\ col (screen h) = 0%nat).

(** * Properties *)

(** ** Strings *)

Lemma len_app (s t : pystr) : len (s ++ t) = len s + len t.
Proof. unfold len. rewrite length_app. lia. Qed.

Lemma len_nonneg (s : pystr) : 0 <= len s.
Proof. unfold len. lia. Qed.

Lemma length_pad (lj : bool) (n : nat) (s : pystr) :
  length (pad lj n s) = Nat.max n (length s).
Proof.
  unfold pad. destruct lj; rewrite length_app, repeat_length; lia.
Qed.

(** ** The [%] operator on the format strings the handler builds *)

Lemma emit_then_app (a b : pystr) (r : result pystr) :
  emit_then a (emit_then b r) = emit_then (a ++ b) r.
Proof. destruct r; simpl; [rewrite app_assoc|]; reflexivity. Qed.


(** Text without a percent sign is copied. *)
Lemma format_from_text (arg tail : pystr) :
  ~ In PCT tail -> format_from arg tail FText true = Ok tail.
Proof.
  induction tail as [|c rest IH]; intros Hno; [reflexivity|].
  simpl. destruct (Ascii.eqb_spec c PCT) as [->|Hc].
  - exfalso. apply Hno. now left.
  - rewrite IH; [reflexivity|]. intros Hin. apply Hno. now right.
Qed.

(** The interpreter raises [TypeError] or [ValueError] only. *)
Lemma format_from_raises (arg fmt : pystr) :
  forall st used e,
    format_from arg fmt st used = Raise e -> e = TypeError \/ e = ValueError.
Proof.
  induction fmt as [|c rest IH]; intros st used e.
  - destruct st, used; simpl; intros H; inversion H; auto.
  - destruct st; simpl;
      unfold in_flags, after_flags, after_width, after_prec, conversion,
        convert, emit_then;
      repeat match goal with
             | |- context [if ?b then _ else _] => destruct b
             | |- context [match is_digit ?c with _ => _ end] =>
                 destruct (is_digit c)
             | |- context [match arg with _ => _ end] => destruct arg as [|? [|? ?]]
             | |- context [match format_from ?a ?f ?s ?u with _ => _ end] =>
                 let E := fresh "E" in
                 destruct (format_from a f s u) eqn:E
             end;
      intros H; try discriminate H;
      try (inversion H; subst; auto; fail);
      try (inversion H; subst; eapply IH; eassumption);
      try (eapply IH; eassumption).
Qed.

Lemma py_format_raises (fmt arg : pystr) (e : exn) :
  py_format fmt arg = Raise e -> e <> UnicodeError.
Proof.
  intros H. apply format_from_raises in H. destruct H; subst; discriminate.
Qed.

(** The conversion [s] once flags and width are read. *)
Lemma after_width_s (arg : pystr) (go : fstate -> bool -> result pystr)
    (lj : bool) (w : nat) :
  after_width arg go false lj w "s"%char
  = emit_then (pad lj w arg) (go FText true).
Proof. reflexivity. Qed.

Ltac digit_step :=
  match goal with
  | |- context [is_digit (digit_char ?k)] =>
      change (is_digit (digit_char k)) with (Some k)
  end.

(** Reading the digits of a width gives back the number they print. *)
Lemma format_width_digits (arg : pystr) (d : uint) :
  forall (w : nat) (rest : pystr),
    format_from arg (uint_chars d ++ "s"%char :: rest) (FWidth true w) false
    = emit_then (pad true (Nat.of_uint_acc d w) arg)
        (format_from arg rest FText true).
Proof.
  induction d; intros w rest;
    try (cbn [uint_chars app format_from]; digit_step; cbv iota;
         rewrite IHd; cbn [Nat.of_uint_acc];
         rewrite Nat.tail_mul_spec;
         do 3 f_equal; lia).
  cbn [uint_chars app format_from Nat.of_uint_acc].
  change (is_digit "s"%char) with (@None nat).
  apply after_width_s.
Qed.

(** A zero in front of the width is read as a flag and changes nothing. *)
Lemma format_flags_digits (arg : pystr) (d : uint) :
  forall rest : pystr,
    format_from arg (uint_chars d ++ "s"%char :: rest) (FFlags true) false
    = emit_then (pad true (Nat.of_uint d) arg)
        (format_from arg rest FText true).
Proof.
  unfold Nat.of_uint.
  induction d; intros rest;
    try (cbn [uint_chars app format_from]; unfold in_flags, after_flags;
         match goal with
         | |- context [is_flag (digit_char ?k)] =>
             change (is_flag (digit_char k)) with false;
             change (Ascii.eqb (digit_char k) "*"%char) with false
         end;
         digit_step; cbv iota;
         rewrite format_width_digits; reflexivity).
  - reflexivity.
  - cbn [uint_chars app format_from]. unfold in_flags.
    change (is_flag (digit_char 0)) with true. cbv iota.
    change (true || Ascii.eqb (digit_char 0) "-"%char) with true.
    rewrite IHd. reflexivity.
Qed.

(** [("%-" + str(n) + "s" + tail) % arg] left-justifies [arg] on [n]
    columns and goes on with [tail]. *)
Lemma py_format_ljust (n : Z) (arg tail : pystr) :
  0 <= n ->
  py_format (lit "%-" ++ str n ++ lit "s" ++ tail) arg
  = emit_then (pad true (Z.to_nat n) arg) (format_from arg tail FText true).
Proof.
  intros Hn. unfold py_format, str.
  destruct (Z.ltb_spec n 0) as [Hneg|_]; [lia|].
  change (lit "%-" ++ ?x) with (PCT :: "-"%char :: x).
  change (lit "s" ++ tail) with ("s"%char :: tail).
  cbn [format_from]. change (Ascii.eqb PCT PCT) with true. cbv iota.
  change (Ascii.eqb "-"%char "("%char) with false. cbv iota.
  unfold in_flags at 1. change (is_flag "-"%char) with true. cbv iota.
  change (false || Ascii.eqb "-"%char "-"%char) with true.
  rewrite format_flags_digits, DecimalNat.Unsigned.of_to. reflexivity.
Qed.

Lemma py_format_ljust_only (n : Z) (arg : pystr) :
  0 <= n ->
  py_format (lit "%-" ++ str n ++ lit "s") arg = Ok (pad true (Z.to_nat n) arg).
Proof.
  intros Hn.
  rewrite <- (app_nil_r (lit "s")), py_format_ljust by assumption.
  simpl. now rewrite app_nil_r.
Qed.

Lemma py_format_line (arg : pystr) :
  py_format (lit "%s" ++ [LF]) arg = Ok (arg ++ [LF]).
Proof.
  vm_compute. reflexivity.
Qed.

Lemma py_format_text_first (c : ascii) (fmt arg : pystr) :
  c <> PCT -> py_format (c :: fmt) arg = emit_then [c] (py_format fmt arg).
Proof.
  intros Hc. unfold py_format. simpl.
  destruct (Ascii.eqb_spec c PCT); [contradiction | reflexivity].
Qed.

(** The format string of [write] over a pending line, applied. *)
Lemma py_format_write_fmt (term_width : Z) (data arg : pystr) (h : handler) :
  need_cr h = true ->
  py_format (write_fmt term_width data h) arg
  = emit_then
      (CR :: pad true
               (Z.to_nat (Z.max (Z.min term_width (len (last h))) (len data)))
               arg)
      (format_from arg (LF :: last h) FText true).
Proof.
  intros Hcr. unfold write_fmt. rewrite Hcr.
  rewrite py_format_text_first by discriminate.
  rewrite py_format_ljust by (pose proof (len_nonneg data); lia).
  rewrite emit_then_app. reflexivity.
Qed.

(** ** The stream *)

Lemma written_app (evs evs' : list event) :
  written (evs ++ evs') = written evs ++ written evs'.
Proof.
  induction evs as [|[[s|]|op e] evs IH]; simpl; rewrite ?IH, ?app_assoc;
    reflexivity.
Qed.


(** The [try]/[except UnicodeError] around the write is the fallback of the
    specification: at most one further call. *)
Lemma try_write_fallback
    (stream_raises : list event -> stream_op -> option exn)
    (encode_utf8 : pystr -> result pystr)
    (fmt d x : pystr) (h : handler) :
  py_format fmt d = Ok x ->
  try_except_unicode (write_formatted stream_raises fmt d)
    (write_encoded stream_raises encode_utf8 fmt d) h
  = spec_write_with_fallback stream_raises x
      (format_encoded encode_utf8 fmt d) h.
Proof.
  intros Hx.
  unfold try_except_unicode, write_formatted, write_encoded,
    spec_write_with_fallback, bind, lift, stream_write, stream_call.
  rewrite Hx.
  destruct (stream_raises (stream h) (SWrite x)) as [e|] eqn:E1.
  - destruct e; reflexivity.
  - reflexivity.
Qed.

Lemma try_write_raises
    (stream_raises : list event -> stream_op -> option exn)
    (encode_utf8 : pystr -> result pystr)
    (fmt d : pystr) (e : exn) (h : handler) :
  py_format fmt d = Raise e ->
  try_except_unicode (write_formatted stream_raises fmt d)
    (write_encoded stream_raises encode_utf8 fmt d) h
  = (h, Raise e).
Proof.
  intros He. pose proof (py_format_raises _ _ _ He) as Hne.
  unfold try_except_unicode, write_formatted, bind, lift. rewrite He.
  destruct e; try reflexivity. contradiction.
Qed.


(** The text the fallback sends when no line is pending. *)
Lemma format_encoded_line (encode_utf8 : pystr -> result pystr)
    (d : pystr) :
  format_encoded encode_utf8 (lit "%s" ++ [LF]) d
  = match encode_utf8 d with
    | Ok encoded => Ok (encoded ++ [LF])
    | Raise e => Raise e
    end.
Proof.
  unfold format_encoded.
  destruct (encode_utf8 d); [apply py_format_line | reflexivity].
Qed.

Lemma fallback_accepting (x : pystr) (x' : result pystr) (h : handler) :
  spec_write_with_fallback accepting x x' h
  = (log_event (Done (SWrite x)) h, Ok tt).
Proof. reflexivity. Qed.

(** ** Permanent writes *)

(** C1, as amended: a permanent write over a pending line whose text holds
    no percent sign makes one call on the stream, with a carriage return,
    the message left-justified on
    [max(min(terminal_width, len(last_line)), len(message))] columns, a
    newline and the pending line; the handler's fields are as before. *)
Theorem write_pending_output (encode_utf8 : pystr -> result pystr) (term_width : Z)
    (data : pystr) (h : handler) :
  need_cr h = true ->
  ~ In PCT (last h) ->
  let columns := Z.max (Z.min term_width (len (last h))) (len data) in
  write accepting encode_utf8 term_width data h
  = (log_event
       (Done (SWrite (CR :: pad true (Z.to_nat columns) data
                         ++ LF :: last h)))
       h,
     Ok tt).
Proof.
  intros Hcr Hpct columns.
  assert (Hfmt : forall arg,
             py_format (write_fmt term_width data h) arg
             = Ok (CR :: pad true (Z.to_nat columns) arg ++ LF :: last h)).
  { intros arg. rewrite py_format_write_fmt by assumption.
    rewrite format_from_text; [reflexivity|].
    intros [Hlf|Hin]; [discriminate | contradiction]. }
  unfold write, bind, get.
  rewrite (try_write_fallback accepting encode_utf8 _ _ _ _ (Hfmt data)).
  apply fallback_accepting.
Qed.

Lemma write_pending_output_witness :
  need_cr pending_bb = true /\
  ~ In PCT (last pending_bb) /\
  write accepting encode_str 10 (lit "ALERT") pending_bb
  = (log_event (Done (SWrite (CR :: lit "ALERT" ++ LF :: lit "bb")))
       pending_bb,
     Ok tt).
Proof.
  split; [reflexivity|]. split.
  - simpl. intros [H|[H|[]]]; discriminate.
  - apply (write_pending_output encode_str 10 (lit "ALERT") pending_bb).
    + reflexivity.
    + simpl. intros [H|[H|[]]]; discriminate.
Defined.

(** C1 as the specification words it fails: at width 10, with "bb" pending,
    the message "ALERT" is written on 5 columns, not on 10 or more. *)
Lemma write_pending_spec_fails :
  ~ spec_permanent_output 10 (last pending_bb) (lit "ALERT")
      (written
         (stream (fst (write accepting encode_str 10 (lit "ALERT")
                         pending_bb)))).
Proof.
  intros [k [Hk Heq]].
  change (Z.max 10 (len (last pending_bb))) with 10 in Hk.
  apply (f_equal (@length ascii)) in Heq.
  match type of Heq with
  | ?l = _ => let n := eval vm_compute in l in change l with n in Heq
  end.
  change (last pending_bb) with (lit "bb") in Heq.
  cbn [length] in Heq.
  rewrite length_app, length_pad in Heq.
  cbn [length lit list_ascii_of_string] in Heq.
  lia.
Qed.

(** A call on the stream changes the history of the stream only. *)
Lemma stream_call_fields
    (stream_raises : list event -> stream_op -> option exn)
    (op : stream_op) (h : handler) :
  let h' := fst (stream_call stream_raises op h) in
  levelno h' = levelno h /\ need_cr h' = need_cr h /\ last h' = last h
  /\ errors h' = errors h.
Proof.
  unfold stream_call. destruct (stream_raises (stream h) op); simpl; auto.
Qed.

Lemma write_formatted_fields
    (stream_raises : list event -> stream_op -> option exn)
    (fmt data : pystr) (h : handler) :
  let h' := fst (write_formatted stream_raises fmt data h) in
  levelno h' = levelno h /\ need_cr h' = need_cr h /\ last h' = last h
  /\ errors h' = errors h.
Proof.
  unfold write_formatted, bind, lift.
  destruct (py_format fmt data); simpl; auto.
  apply stream_call_fields.
Qed.

Lemma write_encoded_fields
    (stream_raises : list event -> stream_op -> option exn)
    (encode_utf8 : pystr -> result pystr)
    (fmt data : pystr) (h : handler) :
  let h' := fst (write_encoded stream_raises encode_utf8 fmt data h) in
  levelno h' = levelno h /\ need_cr h' = need_cr h /\ last h' = last h
  /\ errors h' = errors h.
Proof.
  unfold write_encoded, bind, lift.
  destruct (format_encoded encode_utf8 fmt data); simpl; auto.
  apply stream_call_fields.
Qed.

Lemma try_write_fields
    (stream_raises : list event -> stream_op -> option exn)
    (encode_utf8 : pystr -> result pystr)
    (fmt d : pystr) (h : handler) :
  let h' := fst (try_except_unicode (write_formatted stream_raises fmt d)
                   (write_encoded stream_raises encode_utf8 fmt d) h) in
  levelno h' = levelno h /\ need_cr h' = need_cr h /\ last h' = last h
  /\ errors h' = errors h.
Proof.
  pose proof (write_formatted_fields stream_raises fmt d h) as H1.
  unfold try_except_unicode.
  destruct (write_formatted stream_raises fmt d h) as [h1 [u|e]];
    [exact H1|].
  simpl in H1. destruct H1 as (Hl & Hc & Hs & He).
  destruct e; simpl; auto.
  pose proof (write_encoded_fields stream_raises encode_utf8 fmt d h1) as H2.
  simpl in H2. destruct H2 as (Hl2 & Hc2 & Hs2 & He2).
  repeat split; congruence.
Qed.

(** C5, as amended: a permanent write changes neither [last_line] nor
    [needs_newline], whatever the state before it and whatever the stream
    does. *)
Theorem write_keeps_state
    (stream_raises : list event -> stream_op -> option exn)
    (encode_utf8 : pystr -> result pystr) (term_width : Z) (data : pystr)
    (h : handler) :
  let h' := fst (write stream_raises encode_utf8 term_width data h) in
  last h' = last h /\ need_cr h' = need_cr h.
Proof.
  unfold write, bind, get.
  pose proof (try_write_fields stream_raises encode_utf8
                (write_fmt term_width data h) data h) as H.
  simpl in *. tauto.
Qed.

(** C5 as the specification words it fails: [needs_newline] is still true
    after a permanent write over a pending line. *)
Lemma write_clears_need_cr_fails :
  need_cr (fst (write accepting encode_str 10 (lit "ALERT") pending_bb))
  <> false.
Proof. vm_compute. discriminate. Qed.

(** ** Transient writes *)

Lemma shorten_long (width : Z) (line : pystr) :
  width < len line ->
  shorten width line = slice_to line (width - 3) ++ lit "...".
Proof.
  intros H. unfold shorten.
  destruct (Z.gtb_spec (len line) width) as [_|Hle]; [reflexivity | lia].
Qed.

Lemma shorten_short (width : Z) (line : pystr) :
  len line <= width -> shorten width line = line.
Proof.
  intros H. unfold shorten.
  destruct (Z.gtb_spec (len line) width) as [Hgt|_]; [lia | reflexivity].
Qed.

Lemma shorten_long_wide (width : Z) (line : pystr) :
  3 <= width ->
  width < len line ->
  shorten width line = firstn (Z.to_nat (width - 3)) line ++ lit "...".
Proof.
  intros H3 Hlong.
  rewrite shorten_long by assumption. unfold slice_to.
  destruct (Z.ltb_spec (width - 3) 0); [lia | reflexivity].
Qed.

Lemma len_shorten_long (width : Z) (line : pystr) :
  3 <= width ->
  width < len line ->
  len (shorten width line) = width.
Proof.
  intros H3 Hlong.
  rewrite shorten_long_wide, len_app by assumption. unfold len in *.
  rewrite length_firstn. simpl length. lia.
Qed.

Lemma len_shorten (width : Z) (line : pystr) :
  3 <= width -> len (shorten width line) <= width.
Proof.
  intros H3. destruct (Z.lt_ge_cases width (len line)) as [Hlong|Hshort].
  - rewrite len_shorten_long by assumption. lia.
  - rewrite shorten_short by assumption. assumption.
Qed.

(** C3, as amended: on a terminal of at least 3 columns, a line longer than
    the width is shown as its first [width - 3] characters and three dots,
    [width] characters in all. *)
Theorem shorten_to_width (width : Z) (line : pystr) :
  3 <= width ->
  width < len line ->
  shorten width line = firstn (Z.to_nat (width - 3)) line ++ lit "..." /\
  spec_shortened width (shorten width line).
Proof.
  intros H3 Hlong.
  split; [now apply shorten_long_wide|]. split.
  - now apply len_shorten_long.
  - eexists. now apply shorten_long_wide.
Qed.

Lemma shorten_to_width_witness :
  3 <= 5 /\ 5 < len (lit "abcdefg") /\
  shorten 5 (lit "abcdefg") = lit "ab..." /\
  spec_shortened 5 (shorten 5 (lit "abcdefg")).
Proof.
  split; [lia|]. split; [reflexivity|].
  apply (shorten_to_width 5 (lit "abcdefg")); [lia | reflexivity].
Defined.

(** C3 as the specification words it fails on a terminal of one column: the
    line "ab" is shown as three dots, three characters wide. *)
Lemma shorten_narrow_fails :
  0 < 1 /\ 1 < len (lit "ab") /\
  shorten 1 (lit "ab") = lit "..." /\
  ~ spec_shortened 1 (shorten 1 (lit "ab")).
Proof.
  split; [lia|]. split; [reflexivity|]. split; [reflexivity|].
  intros [Hlen _]. vm_compute in Hlen. discriminate.
Qed.

(** A non-empty line on a stream that accepts it: one call, the line as
    shown and its padding. *)
Lemma transient_line_accepting (encode_utf8 : pystr -> result pystr) (width : Z)
    (line : pystr) (h : handler) :
  line <> [] ->
  let shown := shorten width line in
  let columns := Z.max (Z.min width (len (last h))) (len shown) in
  transient_write_line accepting encode_utf8 width line h
  = (log_event
       (Done (SWrite (shown ++ repeat SP (Z.to_nat columns - length shown))))
       (set_last shown h),
     Ok tt).
Proof.
  intros Hne shown columns.
  assert (Hcols : 0 <= columns) by (pose proof (len_nonneg shown); lia).
  destruct line as [|c line']; [contradiction|].
  unfold transient_write_line, bind, get, modify.
  fold shown. fold columns.
  rewrite (try_write_fallback accepting encode_utf8 _ _
             (pad true (Z.to_nat columns) shown))
    by (apply py_format_ljust_only; assumption).
  reflexivity.
Qed.

(** C2, as amended: a non-empty line of a transient write becomes
    [last_line] as it is shown, and is written in one call, followed by
    spaces only, on exactly
    [max(min(terminal_width, len(last_line)), len(line))] columns, where
    [last_line] is the one before the write and [line] the line as shown. *)
Theorem transient_line_output (encode_utf8 : pystr -> result pystr) (width : Z)
    (line : pystr) (h : handler) :
  line <> [] ->
  let shown := shorten width line in
  let columns := Z.max (Z.min width (len (last h))) (len shown) in
  let text := shown ++ repeat SP (Z.to_nat columns - length shown) in
  transient_write_line accepting encode_utf8 width line h
  = (log_event (Done (SWrite text)) (set_last shown h), Ok tt)
  /\ len text = columns.
Proof.
  intros Hne shown columns text. split.
  - apply transient_line_accepting. assumption.
  - unfold text. rewrite len_app. unfold len in *.
    rewrite repeat_length.
    assert (Z.of_nat (length shown) <= columns) by (unfold columns, len; lia).
    lia.
Qed.

Lemma init_warning : init (LevelName "WARNING") = Ok fresh.
Proof. reflexivity. Qed.

Lemma init_default : init (LevelNo WARNING) = Ok fresh.
Proof. reflexivity. Qed.

Lemma transient_line_output_witness :
  lit "a" <> [] /\
  transient_write_line accepting encode_str 10 (lit "a") fresh
  = (log_event (Done (SWrite (lit "a"))) (set_last (lit "a") fresh), Ok tt)
  /\ len (lit "a") = 1.
Proof.
  split; [discriminate|].
  apply (transient_line_output encode_str 10 (lit "a") fresh).
  discriminate.
Defined.

(** C2 as the specification words it fails: on a fresh handler at width 10
    the line "a" is written on one column, not on ten. *)
Lemma transient_line_spec_fails :
  written
    (stream (fst (transient_write_line accepting encode_str 10 (lit "a")
                    fresh)))
  <> pad true (Z.to_nat (spec_transient_columns 10 (last fresh) (lit "a")))
       (lit "a").
Proof. vm_compute. discriminate. Qed.

Lemma transient_write_single (encode_utf8 : pystr -> result pystr)
    (term_width : Z) (data line : pystr) (h : handler) :
  split_lines (rstrip data) = [line] ->
  transient_write accepting encode_utf8 term_width data h
  = (transient_write_line accepting encode_utf8 term_width line ;; ret tt)
      (before_lines h).
Proof.
  intros Hsplit. unfold transient_write, before_lines, bind at 1 2, get.
  rewrite Hsplit. destruct (need_cr h); reflexivity.
Qed.

Lemma last_before_lines (h : handler) : last (before_lines h) = last h.
Proof. unfold before_lines. now destruct (need_cr h). Qed.

(** A blank line of a transient write: a carriage return and a flush. *)
Lemma transient_blank_line (encode_utf8 : pystr -> result pystr) (width : Z)
    (h : handler) :
  transient_write_line accepting encode_utf8 width [] h
  = (log_event (Done SFlush) (log_event (Done (SWrite [CR])) h), Ok tt).
Proof. reflexivity. Qed.

(** A message that is empty once stripped: the cursor goes back when a
    line is pending, then a carriage return and a flush. *)
Lemma transient_write_blank (encode_utf8 : pystr -> result pystr)
    (term_width : Z) (data : pystr) (h : handler) :
  rstrip data = [] ->
  transient_write accepting encode_utf8 term_width data h
  = (log_event (Done SFlush)
       (log_event (Done (SWrite [CR])) (before_lines h)),
     Ok tt).
Proof.
  intros Hempty.
  rewrite (transient_write_single _ _ _ []) by now rewrite Hempty.
  reflexivity.
Qed.

(** C10: a transient write of a message that is empty once stripped, on a
    handler with no line pending, sets [needs_newline], writes one carriage
    return and flushes, and leaves [last_line] as it was; [close] then
    writes a newline and clears [needs_newline]. *)
Theorem transient_empty_then_close (encode_utf8 : pystr -> result pystr)
    (term_width : Z) (data : pystr) (h : handler) :
  rstrip data = [] ->
  need_cr h = false ->
  let h1 := mkHandler (levelno h) true (last h)
              (stream h ++ [Done (SWrite [CR]); Done SFlush]) (errors h) in
  let h2 := mkHandler (levelno h) false (last h)
              (stream h1 ++ [Done (SWrite [LF])]) (errors h) in
  transient_write accepting encode_utf8 term_width data h = (h1, Ok tt) /\
  close accepting h1 = (h2, Ok tt).
Proof.
  intros Hempty Hcr h1 h2. split; [|reflexivity].
  rewrite transient_write_blank by assumption.
  unfold before_lines, h1, log_event, set_need_cr. rewrite Hcr. cbn.
  now rewrite <- app_assoc.
Qed.

Lemma transient_empty_then_close_witness :
  rstrip [LF] = [] /\
  need_cr fresh = false /\
  transient_write accepting encode_str 10 [LF] fresh
  = (mkHandler WARNING true [] [Done (SWrite [CR]); Done SFlush] [], Ok tt) /\
  close accepting
    (mkHandler WARNING true [] [Done (SWrite [CR]); Done SFlush] [])
  = (mkHandler WARNING false []
       [Done (SWrite [CR]); Done SFlush; Done (SWrite [LF])] [],
     Ok tt).
Proof.
  split; [reflexivity|]. split; [reflexivity|].
  apply (transient_empty_then_close encode_str 10 [LF] fresh);
    reflexivity.
Defined.

(** The same message while a line is pending: two carriage returns. *)
Lemma transient_empty_pending (encode_utf8 : pystr -> result pystr)
    (term_width : Z) (data : pystr) (h : handler) :
  rstrip data = [] ->
  need_cr h = true ->
  transient_write accepting encode_utf8 term_width data h
  = (mkHandler (levelno h) true (last h)
       (stream h ++ [Done (SWrite [CR]); Done (SWrite [CR]); Done SFlush])
       (errors h),
     Ok tt).
Proof.
  intros Hempty Hcr.
  rewrite transient_write_blank by assumption.
  unfold before_lines, log_event. rewrite Hcr. cbn. rewrite ?Hcr.
  now rewrite <- !app_assoc.
Qed.

(** ** The scenario of the specification *)

(** C4, as amended: from a fresh handler with threshold WARNING at width
    10, DEBUG "a" then DEBUG "bb" write "a", a carriage return and "bb",
    nothing padded; WARNING "ALERT" then appends, in one call, a carriage
    return, "ALERT", a newline and "bb", and [needs_newline] is still
    true. *)
Theorem scenario_bytes (encode_utf8 : pystr -> result pystr) :
  let h2 := mkHandler WARNING true (lit "bb")
              [Done (SWrite (lit "a")); Done (SWrite [CR]);
               Done (SWrite (lit "bb"))] [] in
  let h3 := log_event
              (Done (SWrite (CR :: lit "ALERT" ++ LF :: lit "bb"))) h2 in
  scenario_debugs encode_utf8 = (h2, Ok tt) /\
  written (stream h2) = lit "a" ++ CR :: lit "bb" /\
  emit_plain encode_utf8 10 (WARNING, lit "ALERT") h2 = (h3, Ok tt) /\
  written (stream h3)
  = written (stream h2) ++ CR :: lit "ALERT" ++ LF :: lit "bb" /\
  need_cr h3 = true.
Proof. repeat split. Qed.

(** C4 as the specification words it fails: the two transient lines are not
    padded to 10 columns and no carriage return comes before the first;
    the permanent line is not padded to 10 columns either. *)
Lemma scenario_spec_fails :
  let h2 := fst (scenario_debugs encode_str) in
  let h3 := fst (emit_plain encode_str 10 (WARNING, lit "ALERT") h2) in
  written (stream h2)
  <> CR :: lit "a         " ++ CR :: lit "bb        " /\
  written (stream h3)
  <> written (stream h2) ++ CR :: lit "ALERT     " ++ LF :: lit "bb".
Proof. split; vm_compute; discriminate. Qed.

(** ** What the terminal shows *)

Lemma feed_app (t : terminal) (s s' : pystr) :
  feed t (s ++ s') = feed (feed t s) s'.
Proof. apply fold_left_app. Qed.

Lemma overwrite_at (c : ascii) (p r : pystr) :
  overwrite (length p) c (p ++ r) = p ++ c :: skipn 1 r.
Proof.
  induction p as [|x p IH]; simpl.
  - destruct r; reflexivity.
  - now rewrite IH.
Qed.

Lemma put_plain (a : list pystr) (p r : pystr) (c : ascii) :
  c <> CR -> c <> LF ->
  put (mkTerminal a (p ++ r) (length p)) c
  = mkTerminal a ((p ++ [c]) ++ skipn 1 r) (length (p ++ [c])).
Proof.
  intros Hcr Hlf. unfold put.
  destruct (Ascii.eqb_spec c CR); [contradiction|].
  destruct (Ascii.eqb_spec c LF); [contradiction|].
  cbn [scrollback row col]. rewrite overwrite_at, <- app_assoc, length_app.
  simpl. f_equal. lia.
Qed.

(** Plain text written from the end of [p] replaces what follows [p],
    cell by cell. *)
Lemma feed_plain_from (s : pystr) :
  plain s ->
  forall (a : list pystr) (p r : pystr),
    feed (mkTerminal a (p ++ r) (length p)) s
    = mkTerminal a (p ++ s ++ skipn (length s) r) (length p + length s).
Proof.
  induction s as [|c s IH]; intros [Hcr Hlf] a p r.
  - simpl. f_equal. lia.
  - cbn [feed fold_left].
    rewrite put_plain
      by (intros ->; first [apply Hcr; now left | apply Hlf; now left]).
    change (fold_left put s ?t) with (feed t s).
    rewrite IH
      by (split; intros Hin; first [apply Hcr; now right | apply Hlf; now right]).
    rewrite skipn_skipn, <- app_assoc, length_app.
    replace (length s + 1)%nat with (length (c :: s)) by (simpl; lia).
    f_equal. simpl. lia.
Qed.

Lemma feed_plain (s : pystr) (a : list pystr) (r : pystr) :
  plain s ->
  feed (mkTerminal a r 0) s
  = mkTerminal a (s ++ skipn (length s) r) (length s).
Proof.
  intros Hs. apply (feed_plain_from s Hs a [] r).
Qed.

Lemma feed_CR (t : terminal) :
  feed t [CR] = mkTerminal (scrollback t) (row t) 0.
Proof. reflexivity. Qed.

Lemma screen_log_write (s : pystr) (h : handler) :
  screen (log_event (Done (SWrite s)) h) = feed (screen h) s.
Proof.
  unfold screen. cbn [stream log_event].
  rewrite written_app, feed_app. simpl. now rewrite app_nil_r.
Qed.

Lemma screen_log_flush (h : handler) :
  screen (log_event (Done SFlush) h) = screen h.
Proof.
  unfold screen. cbn [stream log_event].
  rewrite written_app. simpl. now rewrite app_nil_r.
Qed.

Lemma screen_set_last (s : pystr) (h : handler) :
  screen (set_last s h) = screen h.
Proof. reflexivity. Qed.

Lemma screen_set_need_cr (b : bool) (h : handler) :
  screen (set_need_cr b h) = screen h.
Proof. reflexivity. Qed.

(** *** Plain text *)

Lemma plain_app (s t : pystr) : plain s -> plain t -> plain (s ++ t).
Proof.
  intros [Hs1 Hs2] [Ht1 Ht2].
  split; intros Hin; apply in_app_or in Hin; tauto.
Qed.

Lemma plain_firstn (n : nat) (s : pystr) : plain s -> plain (firstn n s).
Proof.
  intros [H1 H2]. rewrite <- (firstn_skipn n s) in H1, H2.
  split; intros Hin; [apply H1 | apply H2]; apply in_or_app; now left.
Qed.

Lemma plain_spaces (n : nat) : plain (repeat SP n).
Proof.
  split; intros Hin; apply repeat_spec in Hin; discriminate.
Qed.

Lemma plain_shorten (width : Z) (line : pystr) :
  plain line -> plain (shorten width line).
Proof.
  intros Hp. unfold shorten.
  destruct (len line >? width); [|assumption].
  apply plain_app.
  - unfold slice_to. destruct (width - 3 <? 0); now apply plain_firstn.
  - split; simpl; intros [H|[H|[H|[]]]]; discriminate.
Qed.

(** A stripped message without a newline is one line. *)
Lemma split_lines_plain (s : pystr) : ~ In LF s -> split_lines s = [s].
Proof.
  induction s as [|c s IH]; intros Hno; [reflexivity|].
  simpl. destruct (Ascii.eqb_spec c LF) as [->|_].
  - exfalso. apply Hno. now left.
  - rewrite IH; [reflexivity|]. intros Hin. apply Hno. now right.
Qed.

(** *** One transient line after the other *)

(** A message of one non-empty line: the cursor goes back when a line is
    pending, then the line is written with its padding. *)
Lemma transient_write_one_line (encode_utf8 : pystr -> result pystr)
    (term_width : Z) (data : pystr) (h : handler) :
  rstrip data <> [] ->
  ~ In LF (rstrip data) ->
  let shown := shorten term_width (rstrip data) in
  let columns := Z.max (Z.min term_width (len (last h))) (len shown) in
  transient_write accepting encode_utf8 term_width data h
  = (log_event
       (Done (SWrite (shown ++ repeat SP (Z.to_nat columns - length shown))))
       (set_last shown (before_lines h)),
     Ok tt).
Proof.
  intros Hne Hlf shown columns.
  rewrite (transient_write_single _ _ _ (rstrip data))
    by now apply split_lines_plain.
  unfold bind.
  rewrite transient_line_accepting by assumption.
  rewrite last_before_lines. reflexivity.
Qed.

Lemma skipn_spaces (n k : nat) : skipn n (repeat SP k) = repeat SP (k - n).
Proof.
  revert k. induction n as [|n IH]; intros k.
  - now rewrite Nat.sub_0_r.
  - destruct k; simpl; [reflexivity | apply IH].
Qed.

(** Past the text of a row only its spaces are left. *)
Lemma skipn_past_text (n k : nat) (s : pystr) :
  (length s <= n)%nat ->
  skipn n (s ++ repeat SP k) = repeat SP (k - (n - length s)).
Proof.
  intros Hle. rewrite skipn_app, skipn_all2 by assumption.
  simpl. apply skipn_spaces.
Qed.

(** The terminal when the loop of [transient_write] starts: the row as it
    was, the cursor at its start. *)
Lemma screen_before_lines (h : handler) :
  cursor_at_start h ->
  screen (before_lines h)
  = mkTerminal (scrollback (screen h)) (row (screen h)) 0.
Proof.
  intros Hcur. unfold before_lines, cursor_at_start in *.
  destruct (need_cr h).
  - now rewrite screen_log_write, feed_CR.
  - rewrite screen_set_need_cr.
    destruct (screen h) as [a r c]. simpl in *. now rewrite Hcur.
Qed.

(** One transient message of one line keeps the row showing [last_line],
    which is now that message as shown. *)
Lemma transient_write_shows (encode_utf8 : pystr -> result pystr)
    (term_width : Z) (data : pystr) (h : handler) :
  3 <= term_width ->
  one_line data ->
  row_shows_last h -> cursor_at_start h -> last_fits term_width h ->
  let h' := fst (transient_write accepting encode_utf8 term_width data h) in
  last h' = shorten term_width (rstrip data) /\
  row_shows_last h' /\ cursor_at_start h' /\ last_fits term_width h'.
Proof.
  intros H3 [Hne [Hcr Hlf]] [Habove [k Hrow]] Hcur [Hplain Hfit] h'.
  unfold h'. rewrite transient_write_one_line by assumption.
  set (shown := shorten term_width (rstrip data)).
  set (columns := Z.max (Z.min term_width (len (last h))) (len shown)).
  assert (Hshown : plain shown) by (apply plain_shorten; now split).
  assert (Hlen : len shown <= term_width) by now apply len_shorten.
  cbn [fst]. split; [reflexivity|].
  split; [|split].
  - unfold row_shows_last.
    rewrite screen_log_write, screen_set_last, screen_before_lines
      by assumption.
    rewrite feed_plain by (apply plain_app; [assumption | apply plain_spaces]).
    cbn [scrollback row last log_event set_last]. split; [assumption|].
    rewrite Hrow, skipn_past_text, <- app_assoc, <- repeat_app.
    + eexists. reflexivity.
    + rewrite length_app, repeat_length.
      unfold columns, len in *. lia.
  - intros Hfalse. unfold before_lines in Hfalse.
    destruct (need_cr h) eqn:E; simpl in Hfalse; [congruence | discriminate].
  - split; assumption.
Qed.

Lemma transient_run_cons
    (stream_raises : list event -> stream_op -> option exn)
    (encode_utf8 : pystr -> result pystr) (term_width : Z) (m : pystr)
    (msgs : list pystr) (h : handler) :
  transient_run stream_raises encode_utf8 term_width (m :: msgs) h
  = transient_run stream_raises encode_utf8 term_width msgs
      (fst (transient_write stream_raises encode_utf8 term_width m h)).
Proof. reflexivity. Qed.

(** After a run of one-line messages the row shows the last of them. *)
Lemma transient_run_shows (encode_utf8 : pystr -> result pystr) (term_width : Z)
    (msgs : list pystr) :
  3 <= term_width ->
  Forall one_line msgs ->
  forall (m : pystr) (h : handler),
    one_line m ->
    row_shows_last h -> cursor_at_start h -> last_fits term_width h ->
    let h' := transient_run accepting encode_utf8 term_width (m :: msgs) h in
    last h' = shorten term_width (rstrip (List.last (m :: msgs) [])) /\
    row_shows_last h'.
Proof.
  intros H3 Hall. induction Hall as [|m' msgs Hm' Hall IH];
    intros m h Hm Hrow Hcur Hfit;
    destruct (transient_write_shows encode_utf8 term_width m h
                H3 Hm Hrow Hcur Hfit) as (Hlast & Hrow' & Hcur' & Hfit').
  - split; assumption.
  - rewrite transient_run_cons.
    change (List.last (m :: m' :: msgs) []) with (List.last (m' :: msgs) []).
    now apply IH.
Qed.

Lemma fresh_invariants (term_width : Z) :
  0 <= term_width ->
  row_shows_last fresh /\ cursor_at_start fresh /\ last_fits term_width fresh.
Proof.
  intros Hw. split; [|split].
  - split; [reflexivity|]. now exists 0%nat.
  - intros _. reflexivity.
  - split; [|exact Hw]. split; intros [].
Qed.

(** C6, as amended: on a terminal of at least 3 columns, after transient
    writes, from a fresh handler, of messages that are each one non-empty
    line of plain text once stripped, the terminal shows one row: the last
    message as shown (shortened when longer than the terminal), then
    spaces only. *)
Theorem transient_run_shows_last (encode_utf8 : pystr -> result pystr)
    (term_width : Z) (msgs : list pystr) :
  3 <= term_width ->
  msgs <> [] ->
  Forall one_line msgs ->
  spec_shows_only term_width (List.last msgs [])
    (screen (transient_run accepting encode_utf8 term_width msgs fresh)).
Proof.
  intros H3 Hne Hall.
  destruct msgs as [|m msgs]; [contradiction|].
  inversion Hall as [|? ? Hm Hrest]; subst.
  destruct (fresh_invariants term_width ltac:(lia)) as (Hrow & Hcur & Hfit).
  destruct (transient_run_shows encode_utf8 term_width msgs H3 Hrest
              m fresh Hm Hrow Hcur Hfit) as (Hlast & Habove & k & Hk).
  split; [assumption|].
  exists k. now rewrite Hk, Hlast.
Qed.

Lemma one_line_text (s : string) :
  rstrip (lit s) <> [] ->
  forallb (fun c => negb (Ascii.eqb c CR || Ascii.eqb c LF)) (rstrip (lit s))
  = true ->
  one_line (lit s).
Proof.
  intros Hne Hall. split; [assumption|].
  rewrite forallb_forall in Hall.
  split; intros Hin; apply Hall in Hin; discriminate.
Qed.

Lemma transient_run_shows_last_witness :
  3 <= 10 /\
  [lit "a"; lit "bbb"; lit "cc"] <> [] /\
  Forall one_line [lit "a"; lit "bbb"; lit "cc"] /\
  spec_shows_only 10 (lit "cc")
    (screen (transient_run accepting encode_str 10
               [lit "a"; lit "bbb"; lit "cc"] fresh)).
Proof.
  assert (Hall : Forall one_line [lit "a"; lit "bbb"; lit "cc"])
    by (repeat constructor; apply one_line_text;
        (discriminate || reflexivity)).
  split; [lia|]. split; [discriminate|]. split; [exact Hall|].
  apply (transient_run_shows_last encode_str 10
           [lit "a"; lit "bbb"; lit "cc"]);
    [lia | discriminate | exact Hall].
Defined.

(** C6 as the specification words it fails, four ways: after "a" an empty
    message leaves "a" on the row; after the two-line message "a", "b" the
    message "c" leaves "cb"; at width 2 the message "x" after "abc" leaves
    "x ..."; and after "abcdef" a message with a carriage return between
    "x" and "y" leaves "y   ef". *)
Lemma transient_run_spec_fails :
  ~ spec_shows_only 10 []
      (screen (transient_run accepting encode_str 10 [lit "a"; []] fresh))
  /\
  ~ spec_shows_only 10 (lit "c")
      (screen (transient_run accepting encode_str 10
                 [lit "a" ++ LF :: lit "b"; lit "c"] fresh))
  /\
  ~ spec_shows_only 2 (lit "x")
      (screen (transient_run accepting encode_str 2
                 [lit "abc"; lit "x"] fresh))
  /\
  ~ spec_shows_only 10 (lit "x" ++ CR :: lit "y")
      (screen (transient_run accepting encode_str 10
                 [lit "abcdef"; lit "x" ++ CR :: lit "y"] fresh)).
Proof.
  split; [|split; [|split]]; intros [_ [k Hk]].
  - change (lit "a" = repeat SP k) in Hk. destruct k; discriminate.
  - change (lit "cb" = lit "c" ++ repeat SP k) in Hk.
    destruct k; discriminate.
  - change (lit "x ..." = lit "x" ++ repeat SP k) in Hk.
    destruct k as [|[|k]]; discriminate.
  - change (lit "y   ef" = (lit "x" ++ CR :: lit "y") ++ repeat SP k) in Hk.
    discriminate.
Qed.

(** *** The same transient message twice *)

Lemma need_cr_before_lines (h : handler) : need_cr (before_lines h) = true.
Proof. unfold before_lines. now destruct (need_cr h) eqn:E. Qed.

Lemma before_lines_pending (h : handler) :
  need_cr h = true -> before_lines h = log_event (Done (SWrite [CR])) h.
Proof. intros Hcr. unfold before_lines. now rewrite Hcr. Qed.

Lemma visible_feed_CR (t : terminal) : visible (feed t [CR]) = visible t.
Proof. reflexivity. Qed.

(** C7, as amended: a transient write of a message that is, once stripped,
    a single line without carriage return (the empty one included), done a
    second time, leaves the rows of the terminal and the fields
    [last_line] and [needs_newline] as the first left them.  The terminal
    has its cursor at the start of a row when no line is pending, as the
    handler always leaves it. *)
Theorem transient_write_twice (encode_utf8 : pystr -> result pystr)
    (term_width : Z) (data : pystr) (h : handler) :
  plain (rstrip data) ->
  cursor_at_start h ->
  let h1 := fst (transient_write accepting encode_utf8 term_width data h) in
  let h2 := fst (transient_write accepting encode_utf8 term_width data h1) in
  visible (screen h2) = visible (screen h1) /\
  last h2 = last h1 /\ need_cr h2 = need_cr h1.
Proof.
  intros [Hcr Hlf] Hcur h1 h2.
  destruct (rstrip data) as [|c line'] eqn:Hstrip.
  - (* nothing to show: carriage returns only *)
    unfold h2, h1. rewrite !transient_write_blank by assumption.
    cbn [fst].
    set (g := log_event (Done SFlush)
                (log_event (Done (SWrite [CR])) (before_lines h))).
    assert (Hg : need_cr g = true) by apply need_cr_before_lines.
    rewrite (before_lines_pending g Hg).
    split; [|split; reflexivity].
    now rewrite screen_log_flush, !screen_log_write, !visible_feed_CR.
  - (* one line *)
    assert (Hne : rstrip data <> []) by (rewrite Hstrip; discriminate).
    rewrite <- Hstrip in Hcr, Hlf.
    unfold h2, h1. rewrite !transient_write_one_line by assumption.
    cbn [fst].
    set (shown := shorten term_width (rstrip data)).
    set (columns := Z.max (Z.min term_width (len (last h))) (len shown)).
    set (text := shown ++ repeat SP (Z.to_nat columns - length shown)).
    set (g := log_event (Done (SWrite text)) (set_last shown (before_lines h))).
    assert (Hg : need_cr g = true) by apply need_cr_before_lines.
    assert (Hshown : plain shown) by (apply plain_shorten; now split).
    rewrite (before_lines_pending g Hg).
    change (last g) with shown.
    replace (Z.to_nat (Z.max (Z.min term_width (len shown)) (len shown))
             - length shown)%nat with 0%nat by (unfold len; lia).
    split; [|split; reflexivity].
    rewrite screen_log_write, screen_set_last, screen_log_write, feed_CR.
    unfold g. rewrite screen_log_write, screen_set_last,
      screen_before_lines by assumption.
    rewrite feed_plain
      by (apply plain_app; [assumption | apply plain_spaces]).
    cbn [scrollback row].
    rewrite feed_plain
      by (apply plain_app; [assumption | apply plain_spaces]).
    unfold visible. cbn [scrollback row]. f_equal.
    unfold text. rewrite !app_nil_r, <- !app_assoc.
    rewrite skipn_app, skipn_all, Nat.sub_diag. reflexivity.
Qed.

Lemma transient_write_twice_witness :
  plain (rstrip (lit "bb")) /\
  cursor_at_start pending_bb /\
  visible (screen
             (fst (transient_write accepting encode_str 10 (lit "bb")
                (fst (transient_write accepting encode_str 10 (lit "bb")
                        pending_bb)))))
  = visible (screen
               (fst (transient_write accepting encode_str 10 (lit "bb")
                       pending_bb))).
Proof.
  assert (Hp : plain (rstrip (lit "bb")))
    by (split; simpl; intros [H|[H|[]]]; discriminate).
  assert (Hc : cursor_at_start pending_bb) by (intros H; discriminate H).
  split; [exact Hp|]. split; [exact Hc|].
  apply (transient_write_twice encode_str 10 (lit "bb") pending_bb Hp Hc).
Defined.

(** C7 as the specification words it fails for a single line with a
    carriage return in it: over the pending line "1234567", the message
    "ab", carriage return, "c" leaves "c   567" when written once and
    "cb  567" when written twice. *)
Lemma transient_write_twice_cr_fails :
  let h := transient_run accepting encode_str 80 [lit "1234567"] fresh in
  let m := lit "ab" ++ CR :: lit "c" in
  let h1 := fst (transient_write accepting encode_str 80 m h) in
  let h2 := fst (transient_write accepting encode_str 80 m h1) in
  split_lines (rstrip m) = [m] /\
  row (screen h1) = lit "c   567" /\
  row (screen h2) = lit "cb  567" /\
  visible (screen h2) <> visible (screen h1).
Proof. repeat split. discriminate. Qed.

(** ** Failures of the stream *)








(** ** Errors in [emit] *)

Section EmitErrors.
Variable stream_raises : list event -> stream_op -> option exn.
Variable encode_utf8 : pystr -> result pystr.
Variable LogRecord : Type.
Variable record_levelno : LogRecord -> Z.
Variable format : LogRecord -> result pystr.

Lemma emit_reraises (term_width : Z) (record : LogRecord)
    (h h' : handler) (e : exn) :
  emit_body stream_raises encode_utf8 LogRecord record_levelno format
      term_width record h = (h', Raise e) ->
  terminates_process e = true ->
  emit stream_raises encode_utf8 LogRecord record_levelno format
      term_width record h = (h', Raise e).
Proof.
  unfold emit. intros -> He.
  destruct e; try discriminate He; reflexivity.
Qed.

Lemma emit_reports (term_width : Z) (record : LogRecord)
    (h h' : handler) (e : exn) :
  emit_body stream_raises encode_utf8 LogRecord record_levelno format
      term_width record h = (h', Raise e) ->
  terminates_process e = false ->
  emit stream_raises encode_utf8 LogRecord record_levelno format
      term_width record h = (log_error e h', Ok tt).
Proof.
  unfold emit. intros -> He.
  destruct e; try discriminate He; reflexivity.
Qed.

Lemma emit_returns (term_width : Z) (record : LogRecord)
    (h h' : handler) :
  emit_body stream_raises encode_utf8 LogRecord record_levelno format
      term_width record h = (h', Ok tt) ->
  emit stream_raises encode_utf8 LogRecord record_levelno format
      term_width record h = (h', Ok tt).
Proof. unfold emit. now intros ->. Qed.

Lemma format_failure (term_width : Z) (record : LogRecord) (h : handler)
    (e : exn) :
  format record = Raise e ->
  emit_body stream_raises encode_utf8 LogRecord record_levelno format
      term_width record h = (h, Raise e).
Proof.
  intros He. unfold emit_body, bind, lift. now rewrite He.
Qed.

(** C9: when formatting or writing raises inside [emit],
    [KeyboardInterrupt] and [SystemExit] go to the caller and every other
    exception is handed to [handleError]; nothing else ever leaves
    [emit]. *)
Theorem emit_error_routing (term_width : Z) (record : LogRecord)
    (h : handler) :
  (forall h' e,
      emit_body stream_raises encode_utf8 LogRecord record_levelno format
      term_width record h = (h', Raise e) ->
      terminates_process e = true ->
      emit stream_raises encode_utf8 LogRecord record_levelno format
      term_width record h = (h', Raise e)) /\
  (forall h' e,
      emit_body stream_raises encode_utf8 LogRecord record_levelno format
      term_width record h = (h', Raise e) ->
      terminates_process e = false ->
      emit stream_raises encode_utf8 LogRecord record_levelno format
      term_width record h = (log_error e h', Ok tt)) /\
  (forall h',
      emit_body stream_raises encode_utf8 LogRecord record_levelno format
      term_width record h = (h', Ok tt) ->
      emit stream_raises encode_utf8 LogRecord record_levelno format
      term_width record h = (h', Ok tt)) /\
  (forall e,
      format record = Raise e ->
      emit_body stream_raises encode_utf8 LogRecord record_levelno format
      term_width record h = (h, Raise e)) /\
  (forall e,
      snd (emit stream_raises encode_utf8 LogRecord record_levelno format
      term_width record h) = Raise e ->
      terminates_process e = true /\
      snd (emit_body stream_raises encode_utf8 LogRecord record_levelno format
      term_width record h) = Raise e).
Proof.
  split; [|split; [|split; [|split]]].
  - intros h' e. apply emit_reraises.
  - intros h' e. apply emit_reports.
  - intros h'. apply emit_returns.
  - intros e. apply format_failure.
  - intros e.
    destruct (emit_body stream_raises encode_utf8 LogRecord record_levelno format
      term_width record h) as [h' [[]|e']] eqn:Hbody.
    + rewrite (emit_returns _ _ _ _ Hbody). discriminate.
    + destruct (terminates_process e') eqn:Hterm.
      * rewrite (emit_reraises _ _ _ _ _ Hbody Hterm).
        simpl. intros [= <-]. now split.
      * rewrite (emit_reports _ _ _ _ _ Hbody Hterm). discriminate.
Qed.
End EmitErrors.

Lemma emit_error_routing_witness :
  let failing := fun _ : plain_record => @Raise pystr ValueError in
  failing (DEBUG, lit "a") = Raise ValueError /\
  emit_body accepting encode_str plain_record fst failing 10
    (DEBUG, lit "a") fresh
  = (fresh, Raise ValueError) /\
  terminates_process ValueError = false /\
  emit accepting encode_str plain_record fst failing 10 (DEBUG, lit "a")
    fresh
  = (log_error ValueError fresh, Ok tt).
Proof.
  intros failing.
  pose proof (emit_error_routing accepting encode_str plain_record fst
                failing 10 (DEBUG, lit "a") fresh)
    as (_ & Hreport & _ & Hformat & _).
  split; [reflexivity|].
  split; [apply Hformat; reflexivity|].
  split; [reflexivity|].
  apply Hreport; [apply Hformat|]; reflexivity.
Defined.

(** ** The percent sign in a pending line

    [write] appends [last_line] to its format string, so a percent sign in
    it is read as the start of a conversion. *)

Lemma write_pending_percent :
  write accepting encode_str 10 (lit "ALERT") pending_percent
  = (pending_percent, Raise ValueError).
Proof. reflexivity. Qed.

(** A doubled percent sign in the pending line is shown as one. *)
Lemma write_pending_double_percent :
  written
    (stream
       (fst (write accepting encode_str 10 (lit "ALERT")
               (mkHandler WARNING true (lit "50%% done") [] []))))
  = CR :: lit "ALERT    " ++ LF :: lit "50% done".
Proof. reflexivity. Qed.

Lemma emit_pending_percent :
  emit_plain encode_str 10 (WARNING, lit "ALERT") pending_percent
  = (log_error ValueError pending_percent, Ok tt).
Proof. reflexivity. Qed.

(** ** The cursor is at the start of a row when no line is pending *)

Section CursorInvariant.
Variable stream_raises : list event -> stream_op -> option exn.
Variable encode_utf8 : pystr -> result pystr.

Lemma screen_log_failed (op : stream_op) (e : exn) (h : handler) :
  screen (log_event (Failed op e) h) = screen h.
Proof.
  unfold screen. cbn [stream log_event].
  rewrite written_app. simpl. now rewrite app_nil_r.
Qed.

Lemma col_feed_line (t : terminal) (s : pystr) :
  col (feed t (s ++ [LF])) = 0%nat.
Proof. rewrite feed_app. reflexivity. Qed.

Lemma for_each_need_cr {A} (body : A -> M unit) (xs : list A) :
  (forall x h, need_cr (fst (body x h)) = need_cr h) ->
  forall h, need_cr (fst (for_each xs body h)) = need_cr h.
Proof.
  intros Hbody. induction xs as [|x xs IH]; intros h; [reflexivity|].
  cbn [for_each]. unfold bind. specialize (Hbody x h).
  destruct (body x h) as [h1 [u|e]]; simpl in *; [|assumption].
  now rewrite IH.
Qed.

Lemma transient_write_line_need_cr (width : Z) (line : pystr) (h : handler) :
  need_cr (fst (transient_write_line stream_raises encode_utf8 width line h))
  = need_cr h.
Proof.
  destruct line as [|c line'].
  - unfold transient_write_line, bind, stream_write, stream_flush.
    pose proof (stream_call_fields stream_raises (SWrite [CR]) h) as H1.
    destruct (stream_call stream_raises (SWrite [CR]) h) as [h1 [u|e]];
      simpl in H1; [|simpl; tauto].
    pose proof (stream_call_fields stream_raises SFlush h1) as H2.
    simpl in H2. destruct H1 as (_ & H1 & _), H2 as (_ & H2 & _).
    congruence.
  - unfold transient_write_line, bind, get, modify.
    match goal with
    | |- need_cr (fst (try_except_unicode (write_formatted _ ?f ?d)
                         (write_encoded _ _ ?f ?d) ?g)) = _ =>
        pose proof (try_write_fields stream_raises encode_utf8 f d g) as H
    end.
    simpl in H. tauto.
Qed.

(** A transient write always leaves a line pending. *)
Lemma transient_write_need_cr (term_width : Z) (data : pystr) (h : handler) :
  need_cr (fst (transient_write stream_raises encode_utf8 term_width data h))
  = true.
Proof.
  unfold transient_write, bind at 1 2, get.
  destruct (need_cr h) eqn:Hcr.
  - unfold stream_write.
    pose proof (stream_call_fields stream_raises (SWrite [CR]) h) as H1.
    destruct (stream_call stream_raises (SWrite [CR]) h) as [h1 [u|e]];
      simpl in H1; destruct H1 as (_ & H1 & _).
    + rewrite for_each_need_cr by apply transient_write_line_need_cr.
      congruence.
    + simpl. congruence.
  - unfold modify.
    now rewrite for_each_need_cr by apply transient_write_line_need_cr.
Qed.

Lemma fallback_cursor_at_start (x : pystr) (x' : result pystr)
    (h : handler) :
  cursor_at_start h ->
  cursor_at_start
    (fst (spec_write_with_fallback stream_raises (x ++ [LF])
            (match x' with
             | Ok t => Ok (t ++ [LF])
             | Raise e => Raise e
             end) h)).
Proof.
  intros Hcur. unfold spec_write_with_fallback.
  destruct (stream_raises (stream h) (SWrite (x ++ [LF]))) as [e|].
  - assert (Hfail : cursor_at_start
                      (log_event (Failed (SWrite (x ++ [LF])) e) h))
      by (unfold cursor_at_start; now rewrite screen_log_failed).
    destruct e; try exact Hfail.
    destruct x' as [t|e']; [|exact Hfail].
    match goal with
    | |- context [stream_raises ?l ?o] => destruct (stream_raises l o)
    end; cbn [fst]; intros Hfalse.
    + rewrite !screen_log_failed. apply Hcur. exact Hfalse.
    + rewrite screen_log_write. apply col_feed_line.
  - cbn [fst]. intros _. rewrite screen_log_write. apply col_feed_line.
Qed.

Lemma write_cursor_at_start (term_width : Z) (data : pystr) (h : handler) :
  cursor_at_start h ->
  cursor_at_start (fst (write stream_raises encode_utf8 term_width data h)).
Proof.
  intros Hcur. unfold write, bind, get.
  destruct (need_cr h) eqn:Hcr.
  - pose proof (try_write_fields stream_raises encode_utf8
                  (write_fmt term_width data h) data h) as H.
    simpl in H. intros Hfalse. destruct H as (_ & H & _). congruence.
  - unfold write_fmt. rewrite Hcr.
    rewrite (try_write_fallback stream_raises encode_utf8 _ _ _ _
               (py_format_line data)), format_encoded_line.
    now apply fallback_cursor_at_start.
Qed.

Lemma close_cursor_at_start (h : handler) :
  cursor_at_start h -> cursor_at_start (fst (close stream_raises h)).
Proof.
  intros Hcur. unfold close, bind, get, parent_close, ret.
  destruct (need_cr h) eqn:Hcr; [|exact Hcur].
  unfold stream_write, stream_call.
  destruct (stream_raises (stream h) (SWrite [LF])) as [e|];
    cbn [fst modify]; intros Hfalse.
  - simpl in Hfalse. congruence.
  - rewrite screen_set_need_cr, screen_log_write. reflexivity.
Qed.

Section EmitCursor.
Variable LogRecord : Type.
Variable record_levelno : LogRecord -> Z.
Variable format : LogRecord -> result pystr.

Lemma emit_body_cursor_at_start (term_width : Z) (record : LogRecord)
    (h : handler) :
  cursor_at_start h ->
  cursor_at_start
    (fst (emit_body stream_raises encode_utf8 LogRecord record_levelno format
            term_width record h)).
Proof.
  intros Hcur. unfold emit_body, bind, lift, get.
  destruct (format record) as [msg|e]; [|exact Hcur].
  destruct (record_levelno record >=? levelno h).
  - now apply write_cursor_at_start.
  - intros Hfalse. rewrite transient_write_need_cr in Hfalse. discriminate.
Qed.

Lemma emit_cursor_at_start (term_width : Z) (record : LogRecord)
    (h : handler) :
  cursor_at_start h ->
  cursor_at_start
    (fst (emit stream_raises encode_utf8 LogRecord record_levelno format
            term_width record h)).
Proof.
  intros Hcur.
  pose proof (emit_body_cursor_at_start term_width record h Hcur) as Hbody.
  unfold emit.
  destruct (emit_body stream_raises encode_utf8 LogRecord record_levelno
              format term_width record h) as [h' [u|e]]; [exact Hbody|].
  destruct e; exact Hbody.
Qed.

(** Whatever is emitted from a fresh handler, and whatever the stream does,
    the cursor is at the start of a row whenever no line is pending. *)
Lemma emit_run_cursor_at_start (term_width : Z) (records : list LogRecord) :
  forall h : handler,
    cursor_at_start h ->
    cursor_at_start
      (emit_run stream_raises encode_utf8 LogRecord record_levelno format
         term_width records h).
Proof.
  induction records as [|r records IH]; intros h Hcur; [exact Hcur|].
  apply IH. now apply emit_cursor_at_start.
Qed.
End EmitCursor.
End CursorInvariant.

Lemma fresh_cursor_at_start : cursor_at_start fresh.
Proof. intros _. reflexivity. Qed.

(** * Further properties of the handler *)

(** ** What every transient write keeps *)

Lemma for_each_keeps {A B} (f : handler -> B) (body : A -> M unit)
    (xs : list A) :
  (forall x h, f (fst (body x h)) = f h) ->
  forall h, f (fst (for_each xs body h)) = f h.
Proof.
  intros Hbody. induction xs as [|x xs IH]; intros h; [reflexivity|].
  cbn [for_each]. unfold bind. specialize (Hbody x h).
  destruct (body x h) as [h1 [u|e]]; simpl in *; [|assumption].
  now rewrite IH.
Qed.

Lemma transient_write_line_fields
    (stream_raises : list event -> stream_op -> option exn)
    (encode_utf8 : pystr -> result pystr) (width : Z) (line : pystr) (h : handler) :
  let h' := fst (transient_write_line stream_raises encode_utf8 width line h) in
  levelno h' = levelno h /\ need_cr h' = need_cr h /\ errors h' = errors h /\
  last h' = match line with [] => last h | _ => shorten width line end.
Proof.
  destruct line as [|c line'].
  - unfold transient_write_line, bind, stream_write, stream_flush.
    pose proof (stream_call_fields stream_raises (SWrite [CR]) h) as H1.
    destruct (stream_call stream_raises (SWrite [CR]) h) as [h1 [u|e]];
      simpl in H1; [|simpl; tauto].
    pose proof (stream_call_fields stream_raises SFlush h1) as H2.
    simpl in H2. destruct H1 as (? & ? & ? & ?), H2 as (? & ? & ? & ?).
    repeat split; congruence.
  - unfold transient_write_line, bind, get, modify.
    match goal with
    | |- context [try_except_unicode (write_formatted _ ?f ?d)
                    (write_encoded _ _ ?f ?d) ?g] =>
        pose proof (try_write_fields stream_raises encode_utf8 f d g) as H
    end.
    simpl in H. simpl. tauto.
Qed.

(** The handler when the loop of [transient_write] starts, on any stream:
    the carriage return may have been refused. *)
Lemma transient_write_start
    (stream_raises : list event -> stream_op -> option exn)
    (encode_utf8 : pystr -> result pystr) (term_width : Z) (data : pystr)
    (h : handler) :
  need_cr h = false ->
  transient_write stream_raises encode_utf8 term_width data h
  = for_each (split_lines (rstrip data))
      (transient_write_line stream_raises encode_utf8 term_width)
      (set_need_cr true h).
Proof.
  intros Hcr. unfold transient_write, bind, get, modify. now rewrite Hcr.
Qed.

Lemma transient_write_fields
    (stream_raises : list event -> stream_op -> option exn)
    (encode_utf8 : pystr -> result pystr) (term_width : Z) (data : pystr)
    (h : handler) :
  let h' := fst (transient_write stream_raises encode_utf8 term_width data h) in
  need_cr h' = true /\ levelno h' = levelno h /\ errors h' = errors h.
Proof.
  split; [apply transient_write_need_cr|].
  unfold transient_write, bind, get.
  assert (Hloop : forall g,
             let g' := fst (for_each (split_lines (rstrip data))
                              (transient_write_line stream_raises encode_utf8
                                 term_width) g) in
             levelno g' = levelno g /\ errors g' = errors g).
  { intros g. split.
    - apply (for_each_keeps levelno). intros x g0.
      apply transient_write_line_fields.
    - apply (for_each_keeps errors). intros x g0.
      apply transient_write_line_fields. }
  destruct (need_cr h).
  - unfold stream_write.
    pose proof (stream_call_fields stream_raises (SWrite [CR]) h) as H1.
    destruct (stream_call stream_raises (SWrite [CR]) h) as [h1 [u|e]];
      simpl in H1; destruct H1 as (Hl & _ & _ & He).
    + destruct (Hloop h1) as [Hl' He']. split; congruence.
    + simpl. split; assumption.
  - unfold modify. destruct (Hloop (set_need_cr true h)) as [Hl' He'].
    split; assumption.
Qed.

(** X1: whatever the stream does, a transient write leaves a line pending
    and touches neither the threshold nor the errors reported. *)
Theorem transient_write_always_pending
    (stream_raises : list event -> stream_op -> option exn)
    (encode_utf8 : pystr -> result pystr) (term_width : Z) (data : pystr)
    (h : handler) :
  let h' := fst (transient_write stream_raises encode_utf8 term_width data h) in
  need_cr h' = true /\ levelno h' = levelno h /\ errors h' = errors h.
Proof. apply transient_write_fields. Qed.

(** X2: with no line pending, a message of one non-empty line becomes
    [last_line], as shown, even when the stream refuses it: the handler
    remembers a line that may never have been displayed. *)
Theorem transient_write_remembers_line
    (stream_raises : list event -> stream_op -> option exn)
    (encode_utf8 : pystr -> result pystr) (term_width : Z) (data : pystr)
    (h : handler) :
  need_cr h = false ->
  rstrip data <> [] ->
  ~ In LF (rstrip data) ->
  let h' := fst (transient_write stream_raises encode_utf8 term_width data h) in
  last h' = shorten term_width (rstrip data) /\ need_cr h' = true.
Proof.
  intros Hcr Hne Hlf. split; [|apply transient_write_need_cr].
  rewrite transient_write_start by assumption.
  rewrite split_lines_plain by assumption.
  cbn [for_each]. unfold bind.
  pose proof (transient_write_line_fields stream_raises encode_utf8
                term_width (rstrip data) (set_need_cr true h)) as H.
  destruct (transient_write_line stream_raises encode_utf8 term_width
              (rstrip data) (set_need_cr true h)) as [h1 [u|e]];
    simpl in *; destruct H as (_ & _ & _ & H); rewrite H;
    destruct (rstrip data); [contradiction | reflexivity
                            | contradiction | reflexivity].
Qed.

Lemma transient_write_remembers_line_witness :
  let broken := fun (_ : list event) (_ : stream_op) =>
                  Some (OtherException "IOError") in
  need_cr fresh = false /\
  rstrip (lit "abc") <> [] /\
  ~ In LF (rstrip (lit "abc")) /\
  stream (fst (transient_write broken encode_str 10 (lit "abc") fresh))
  = [Failed (SWrite (lit "abc")) (OtherException "IOError")] /\
  last (fst (transient_write broken encode_str 10 (lit "abc") fresh))
  = lit "abc".
Proof.
  intros broken.
  assert (Hlf : ~ In LF (rstrip (lit "abc")))
    by (simpl; intros [H|[H|[H|[]]]]; discriminate).
  split; [reflexivity|]. split; [discriminate|]. split; [exact Hlf|].
  split; [reflexivity|].
  apply (transient_write_remembers_line broken encode_str 10 (lit "abc")
           fresh); [reflexivity | discriminate | exact Hlf].
Defined.

(** ** A permanent write with no line pending *)

(** X3: with no line pending, a permanent write sends the message as it
    is and a newline, whatever the width and whatever the message holds
    (percent signs included).  When the stream raises [UnicodeError] the
    encoded message and a newline are sent once, unless the encoding
    raises: its exception then goes to the caller with no second call.  On
    a stream that accepts the message that is one call. *)
Theorem write_verbatim
    (stream_raises : list event -> stream_op -> option exn)
    (encode_utf8 : pystr -> result pystr) (term_width : Z) (data : pystr)
    (h : handler) :
  need_cr h = false ->
  write stream_raises encode_utf8 term_width data h
  = spec_write_with_fallback stream_raises (data ++ [LF])
      (match encode_utf8 data with
       | Ok encoded => Ok (encoded ++ [LF])
       | Raise e => Raise e
       end) h
  /\
  write accepting encode_utf8 term_width data h
  = (log_event (Done (SWrite (data ++ [LF]))) h, Ok tt).
Proof.
  intros Hcr.
  assert (Hw : forall S,
             write S encode_utf8 term_width data h
             = spec_write_with_fallback S (data ++ [LF])
                 (match encode_utf8 data with
                  | Ok encoded => Ok (encoded ++ [LF])
                  | Raise e => Raise e
                  end) h).
  { intros S. unfold write, bind, get, write_fmt. rewrite Hcr.
    rewrite (try_write_fallback S encode_utf8 _ _ _ _ (py_format_line data)).
    now rewrite format_encoded_line. }
  split; [apply Hw|]. rewrite Hw. reflexivity.
Qed.

Lemma write_verbatim_witness :
  need_cr fresh = false /\
  write ascii_stream encode_str 10 ["255"%char] fresh
  = (log_event (Failed (SWrite ["255"%char; LF]) UnicodeError) fresh,
     Raise UnicodeError) /\
  write accepting encode_str 10 (lit "disk at 100% of %s") fresh
  = (log_event (Done (SWrite (lit "disk at 100% of %s" ++ [LF]))) fresh,
     Ok tt).
Proof.
  split; [reflexivity|]. split.
  - apply (proj1 (write_verbatim ascii_stream encode_str 10 ["255"%char]
                    fresh eq_refl)).
  - apply (write_verbatim accepting encode_str 10 (lit "disk at 100% of %s")
             fresh).
    reflexivity.
Defined.

(** ** Trailing whitespace *)

Lemma rstrip_all_space (t : pystr) : all_space t -> rstrip t = [].
Proof.
  unfold all_space. induction t as [|c t IH]; [reflexivity|].
  simpl. intros H. apply andb_prop in H as [Hc Ht].
  now rewrite IH, Hc.
Qed.

Lemma rstrip_app_space (s t : pystr) :
  all_space t -> rstrip (s ++ t) = rstrip s.
Proof.
  intros Ht. induction s as [|c s IH].
  - now apply rstrip_all_space.
  - simpl. now rewrite IH.
Qed.

(** X4: a transient write does not see the whitespace that ends its
    message: with or without it the handler and the calls on the stream are
    the same, whatever the stream does. *)
Theorem transient_write_ignores_trailing_space
    (stream_raises : list event -> stream_op -> option exn)
    (encode_utf8 : pystr -> result pystr) (term_width : Z) (data t : pystr)
    (h : handler) :
  all_space t ->
  transient_write stream_raises encode_utf8 term_width (data ++ t) h
  = transient_write stream_raises encode_utf8 term_width data h.
Proof.
  intros Ht. unfold transient_write. now rewrite rstrip_app_space.
Qed.

Lemma transient_write_ignores_trailing_space_witness :
  all_space [SP; LF; CR; LF] /\
  transient_write accepting encode_str 10 (lit "abc" ++ [SP; LF; CR; LF])
    pending_bb
  = transient_write accepting encode_str 10 (lit "abc") pending_bb.
Proof.
  split; [reflexivity|].
  apply (transient_write_ignores_trailing_space accepting encode_str 10
           (lit "abc") [SP; LF; CR; LF] pending_bb).
  reflexivity.
Defined.

(** ** [last_line] fits the terminal *)

(** X5: on a terminal of at least 3 columns, a [last_line] that fits the
    width still fits it after a transient write of any message, whatever
    the stream does. *)
Theorem transient_write_last_fits
    (stream_raises : list event -> stream_op -> option exn)
    (encode_utf8 : pystr -> result pystr) (term_width : Z) (data : pystr)
    (h : handler) :
  3 <= term_width ->
  len (last h) <= term_width ->
  len (last (fst (transient_write stream_raises encode_utf8 term_width data
                    h)))
  <= term_width.
Proof.
  intros H3 Hfit.
  assert (Hloop : forall lines g,
             len (last g) <= term_width ->
             len (last (fst (for_each lines
                               (transient_write_line stream_raises
                                  encode_utf8 term_width) g)))
             <= term_width).
  { induction lines as [|l lines IH]; intros g Hg; [exact Hg|].
    cbn [for_each]. unfold bind.
    pose proof (transient_write_line_fields stream_raises encode_utf8
                  term_width l g) as (_ & _ & _ & Hlast).
    assert (Hg1 : len (last (fst (transient_write_line stream_raises
                                    encode_utf8 term_width l g)))
                  <= term_width).
    { rewrite Hlast. destruct l; [exact Hg | now apply len_shorten]. }
    destruct (transient_write_line stream_raises encode_utf8 term_width l g)
      as [g1 [u|e]]; simpl in *; [now apply IH | exact Hg1]. }
  unfold transient_write, bind, get.
  destruct (need_cr h).
  - unfold stream_write.
    pose proof (stream_call_fields stream_raises (SWrite [CR]) h)
      as (_ & _ & Hl & _).
    destruct (stream_call stream_raises (SWrite [CR]) h) as [h1 [u|e]];
      simpl in *; [apply Hloop|]; congruence.
  - unfold modify. now apply Hloop.
Qed.

Lemma transient_write_last_fits_witness :
  3 <= 5 /\
  len (last pending_bb) <= 5 /\
  len (last (fst (transient_write accepting encode_str 5
                    (lit "a long line" ++ LF :: lit "and another")
                    pending_bb)))
  <= 5.
Proof.
  split; [lia|]. split; [vm_compute; discriminate|].
  apply (transient_write_last_fits accepting encode_str 5
           (lit "a long line" ++ LF :: lit "and another") pending_bb);
    [lia | vm_compute; discriminate].
Defined.

(** ** Closing *)

(** X6: [close] writes its newline at most once.  When it returns, no line
    is pending and a second [close] makes no call on the stream; when the
    stream refuses the newline, the exception goes to the caller and the
    line is still pending. *)
Theorem close_newline_once
    (stream_raises : list event -> stream_op -> option exn) (h : handler) :
  (forall h1,
      close stream_raises h = (h1, Ok tt) ->
      need_cr h1 = false /\
      stream h1
      = stream h ++ (if need_cr h then [Done (SWrite [LF])] else []) /\
      close stream_raises h1 = (h1, Ok tt)) /\
  (forall h1 e,
      close stream_raises h = (h1, Raise e) ->
      need_cr h = true /\ need_cr h1 = true /\
      stream h1 = stream h ++ [Failed (SWrite [LF]) e]).
Proof.
  unfold close, bind, get, parent_close, ret, stream_write, stream_call,
    modify.
  destruct (need_cr h) eqn:Hcr.
  - destruct (stream_raises (stream h) (SWrite [LF])) as [e|]; split;
      intros; try discriminate;
      match goal with H : (_, _) = (_, _) |- _ => inversion H; subst end;
      cbn; auto.
  - split; intros; try discriminate.
    match goal with H : (_, _) = (_, _) |- _ => inversion H; subst end.
    rewrite Hcr, app_nil_r. auto.
Qed.

Lemma close_newline_once_witness :
  close accepting pending_bb
  = (mkHandler WARNING false (lit "bb") [Done (SWrite [LF])] [], Ok tt) /\
  close accepting (mkHandler WARNING false (lit "bb") [Done (SWrite [LF])] [])
  = (mkHandler WARNING false (lit "bb") [Done (SWrite [LF])] [], Ok tt).
Proof.
  split; [reflexivity|].
  apply (proj1 (close_newline_once accepting pending_bb)
           (mkHandler WARNING false (lit "bb") [Done (SWrite [LF])] [])).
  reflexivity.
Defined.

(** X7: after a transient write of any message, [close] on a stream that
    accepts it writes one newline: the row the terminal shows goes to the
    scrollback as it is, the new row is empty, and no line is pending. *)
Theorem transient_then_close (encode_utf8 : pystr -> result pystr)
    (term_width : Z) (data : pystr) (h : handler) :
  let h1 := fst (transient_write accepting encode_utf8 term_width data h) in
  let h2 := fst (close accepting h1) in
  snd (close accepting h1) = Ok tt /\
  written (stream h2) = written (stream h1) ++ [LF] /\
  need_cr h2 = false /\
  screen h2
  = mkTerminal (scrollback (screen h1) ++ [row (screen h1)]) [] 0.
Proof.
  intros h1 h2.
  assert (Hcr : need_cr h1 = true) by apply transient_write_need_cr.
  unfold h2, close, bind, get, parent_close, ret. rewrite Hcr.
  cbn [stream_write stream_call accepting modify fst snd].
  change (fst (stream_write accepting [LF] h1))
    with (log_event (Done (SWrite [LF])) h1).
  repeat split.
  - cbn [stream log_event set_need_cr]. now rewrite written_app.
  - rewrite screen_set_need_cr, screen_log_write. reflexivity.
Qed.

(** ** Transient writes and the scrollback *)

Lemma scrollback_feed (s : pystr) :
  ~ In LF s -> forall t, scrollback (feed t s) = scrollback t.
Proof.
  induction s as [|c s IH]; intros Hlf t; [reflexivity|].
  cbn [feed fold_left]. change (fold_left put s ?u) with (feed u s).
  rewrite IH by (intros Hin; apply Hlf; now right).
  unfold put. destruct (Ascii.eqb_spec c CR); [reflexivity|].
  destruct (Ascii.eqb_spec c LF) as [->|_]; [|reflexivity].
  exfalso. apply Hlf. now left.
Qed.

Lemma split_lines_cons (s : pystr) : exists l ls, split_lines s = l :: ls.
Proof.
  destruct s as [|c s]; simpl; [eauto|].
  destruct (Ascii.eqb c LF); [eauto|].
  destruct (split_lines s); eauto.
Qed.

(** No line of a split message holds a newline. *)
Lemma split_lines_no_LF (s : pystr) :
  Forall (fun l => ~ In LF l) (split_lines s).
Proof.
  induction s as [|c s IH]; simpl.
  - constructor; [intros [] | constructor].
  - destruct (Ascii.eqb_spec c LF) as [->|Hc].
    + constructor; [intros [] | assumption].
    + destruct (split_lines s) as [|l ls]; inversion IH; subst;
        constructor; try assumption; try constructor.
      * intros [H|[]]. now apply Hc.
      * intros [H|H]; [now apply Hc | contradiction].
Qed.

Lemma in_firstn (c : ascii) (n : nat) (s : pystr) :
  In c (firstn n s) -> In c s.
Proof.
  intros Hin. rewrite <- (firstn_skipn n s). apply in_or_app. now left.
Qed.

Lemma in_shorten (c : ascii) (width : Z) (line : pystr) :
  In c (shorten width line) -> In c line \/ c = "."%char.
Proof.
  unfold shorten, slice_to. destruct (len line >? width); [|now left].
  intros Hin. apply in_app_or in Hin as [Hin|Hin].
  - left. destruct (width - 3 <? 0); eapply in_firstn; eassumption.
  - right. simpl in Hin. intuition congruence.
Qed.

Lemma transient_write_line_scrollback (encode_utf8 : pystr -> result pystr)
    (width : Z) (line : pystr) (h : handler) :
  ~ In LF line ->
  let r := transient_write_line accepting encode_utf8 width line h in
  snd r = Ok tt /\ scrollback (screen (fst r)) = scrollback (screen h).
Proof.
  intros Hlf. destruct line as [|c line'].
  - rewrite transient_blank_line. split; [reflexivity|]. cbn [fst].
    rewrite screen_log_flush, screen_log_write.
    apply scrollback_feed. intros [H|[]]. discriminate.
  - rewrite transient_line_accepting by discriminate.
    split; [reflexivity|]. cbn [fst].
    rewrite screen_log_write, screen_set_last.
    apply scrollback_feed. intros Hin. apply in_app_or in Hin as [Hin|Hin].
    + apply in_shorten in Hin as [Hin|Hin]; [contradiction | discriminate].
    + apply repeat_spec in Hin. discriminate.
Qed.

Lemma transient_lines_scrollback (encode_utf8 : pystr -> result pystr) (width : Z)
    (lines : list pystr) :
  Forall (fun l => ~ In LF l) lines ->
  forall h,
    let r := for_each lines (transient_write_line accepting encode_utf8 width)
               h in
    snd r = Ok tt /\ scrollback (screen (fst r)) = scrollback (screen h).
Proof.
  induction 1 as [|l lines Hl Hall IH]; intros h; [now split|].
  cbn [for_each]. unfold bind.
  destruct (transient_write_line_scrollback encode_utf8 width l h Hl)
    as [Hok Hsb].
  destruct (transient_write_line accepting encode_utf8 width l h)
    as [h1 [[]|e]]; simpl in *; [|discriminate].
  destruct (IH h1) as [Hok' Hsb']. split; [assumption | congruence].
Qed.

Lemma transient_write_scrollback (encode_utf8 : pystr -> result pystr)
    (term_width : Z) (data : pystr) (h : handler) :
  let r := transient_write accepting encode_utf8 term_width data h in
  snd r = Ok tt /\ scrollback (screen (fst r)) = scrollback (screen h).
Proof.
  unfold transient_write, bind, get.
  pose proof (transient_lines_scrollback encode_utf8 term_width
                (split_lines (rstrip data)) (split_lines_no_LF _)) as Hloop.
  destruct (need_cr h).
  - change (stream_write accepting [CR] h)
      with (log_event (Done (SWrite [CR])) h, @Ok unit tt).
    cbv iota beta.
    destruct (Hloop (log_event (Done (SWrite [CR])) h)) as [Hok Hsb].
    split; [assumption|]. rewrite Hsb, screen_log_write. reflexivity.
  - unfold modify. cbv iota beta.
    destruct (Hloop (set_need_cr true h)) as [Hok Hsb].
    split; assumption.
Qed.

(** X8: a transient write never commits a row: on a stream that accepts
    every call it returns normally and leaves the scrollback as it was,
    whatever the message (several lines, blank lines) and the width. *)
Theorem transient_write_never_scrolls (encode_utf8 : pystr -> result pystr)
    (term_width : Z) (data : pystr) (h : handler) :
  let r := transient_write accepting encode_utf8 term_width data h in
  snd r = Ok tt /\ scrollback (screen (fst r)) = scrollback (screen h).
Proof. apply transient_write_scrollback. Qed.

(** ** A percent sign at the end of the pending line *)

Lemma format_from_trailing_percent (arg t : pystr) :
  ~ In PCT t -> format_from arg (t ++ [PCT]) FText true = Raise ValueError.
Proof.
  induction t as [|c t IH]; intros Hno; [reflexivity|].
  simpl. destruct (Ascii.eqb_spec c PCT) as [->|_].
  - exfalso. apply Hno. now left.
  - rewrite IH; [reflexivity|]. intros Hin. apply Hno. now right.
Qed.

(** X9: when the pending line ends with a percent sign (and holds no
    other), a permanent write raises [ValueError] before any call on the
    stream, whatever the message; [emit] hands it to [handleError], and the
    message never reaches the stream. *)
Theorem write_after_trailing_percent
    (stream_raises : list event -> stream_op -> option exn)
    (encode_utf8 : pystr -> result pystr) (term_width : Z) (data t : pystr)
    (level : Z) (h : handler) :
  need_cr h = true ->
  last h = t ++ [PCT] ->
  ~ In PCT t ->
  levelno h <= level ->
  write stream_raises encode_utf8 term_width data h = (h, Raise ValueError) /\
  emit stream_raises encode_utf8 plain_record fst (fun r => Ok (snd r))
    term_width (level, data) h
  = (log_error ValueError h, Ok tt).
Proof.
  intros Hcr Hlast Hno Hlevel.
  assert (Hw : write stream_raises encode_utf8 term_width data h
               = (h, Raise ValueError)).
  { unfold write, bind, get. apply try_write_raises.
    rewrite py_format_write_fmt by assumption.
    rewrite Hlast.
    change (LF :: t ++ [PCT]) with ((LF :: t) ++ [PCT]).
    rewrite format_from_trailing_percent; [reflexivity|].
    intros [H|H]; [discriminate | contradiction]. }
  split; [exact Hw|].
  unfold emit, emit_body, bind, lift, get. cbn [fst snd].
  destruct (Z.geb_spec level (levelno h)) as [_|Hlt]; [|lia].
  now rewrite Hw.
Qed.

Lemma write_after_trailing_percent_witness :
  need_cr pending_percent = true /\
  last pending_percent = lit "100" ++ [PCT] /\
  ~ In PCT (lit "100") /\
  levelno pending_percent <= 40 /\
  emit accepting encode_str plain_record fst (fun r => Ok (snd r)) 10
    (40, lit "disk full") pending_percent
  = (log_error ValueError pending_percent, Ok tt).
Proof.
  assert (Hno : ~ In PCT (lit "100"))
    by (simpl; intros [H|[H|[H|[]]]]; discriminate).
  split; [reflexivity|]. split; [reflexivity|]. split; [exact Hno|].
  split; [vm_compute; discriminate|].
  apply (write_after_trailing_percent accepting encode_str 10
           (lit "disk full") (lit "100") 40 pending_percent);
    [reflexivity | reflexivity | exact Hno | vm_compute; discriminate].
Defined.

(** ** What [emit] changes *)

Section EmitFrame.
Variable stream_raises : list event -> stream_op -> option exn.
Variable encode_utf8 : pystr -> result pystr.
Variable LogRecord : Type.
Variable record_levelno : LogRecord -> Z.
Variable format : LogRecord -> result pystr.

Lemma write_fields (term_width : Z) (data : pystr) (h : handler) :
  let h' := fst (write stream_raises encode_utf8 term_width data h) in
  levelno h' = levelno h /\ need_cr h' = need_cr h /\ last h' = last h
  /\ errors h' = errors h.
Proof.
  unfold write, bind, get.
  apply (try_write_fields stream_raises encode_utf8
           (write_fmt term_width data h) data h).
Qed.

(** The handler after [emit] is the handler after its body, but for the
    error it may have reported. *)
Lemma emit_after_body (term_width : Z) (record : LogRecord) (h : handler) :
  let hb := fst (emit_body stream_raises encode_utf8 LogRecord record_levelno
                   format term_width record h) in
  let h' := fst (emit stream_raises encode_utf8 LogRecord record_levelno
                   format term_width record h) in
  levelno h' = levelno hb /\ need_cr h' = need_cr hb /\ last h' = last hb /\
  stream h' = stream hb /\
  (errors h' = errors hb \/
   exists e, terminates_process e = false /\ errors h' = errors hb ++ [e]).
Proof.
  unfold emit.
  destruct (emit_body stream_raises encode_utf8 LogRecord record_levelno
              format term_width record h) as [hb [u|e]]; cbn [fst].
  - repeat split; auto.
  - destruct e; cbn; repeat split; auto;
      right; eexists; (split; [|reflexivity]); reflexivity.
Qed.

(** X10: what [emit] changes, whatever the stream does.  The threshold
    never changes.  A record below the threshold leaves a line pending; a
    record at or above it, the threshold included, changes neither
    [last_line] nor [needs_newline]; a record the formatter refuses changes
    neither and makes no call on the stream.  At most one error is
    reported, and never a [KeyboardInterrupt] or a [SystemExit]. *)
Theorem emit_frame (term_width : Z) (record : LogRecord) (h : handler) :
  let h' := fst (emit stream_raises encode_utf8 LogRecord record_levelno
                   format term_width record h) in
  levelno h' = levelno h /\
  (forall msg,
      format record = Ok msg -> record_levelno record < levelno h ->
      need_cr h' = true) /\
  (forall msg,
      format record = Ok msg -> levelno h <= record_levelno record ->
      need_cr h' = need_cr h /\ last h' = last h) /\
  (forall e,
      format record = Raise e ->
      need_cr h' = need_cr h /\ last h' = last h /\ stream h' = stream h) /\
  (errors h' = errors h \/
   exists e, terminates_process e = false /\ errors h' = errors h ++ [e]).
Proof.
  destruct (emit_after_body term_width record h)
    as (Hl & Hc & Hs & Hst & He).
  cbv zeta. rewrite Hl, Hc, Hs, Hst. clear Hl Hc Hs Hst.
  assert (Hbody :
            let hb := fst (emit_body stream_raises encode_utf8 LogRecord
                             record_levelno format term_width record h) in
            levelno hb = levelno h /\ errors hb = errors h /\
            (forall msg,
                format record = Ok msg -> record_levelno record < levelno h ->
                need_cr hb = true) /\
            (forall msg,
                format record = Ok msg -> levelno h <= record_levelno record ->
                need_cr hb = need_cr h /\ last hb = last h) /\
            (forall e,
                format record = Raise e ->
                need_cr hb = need_cr h /\ last hb = last h /\
                stream hb = stream h)).
  { unfold emit_body, bind, lift, get.
    destruct (format record) as [msg|e].
    - destruct (Z.geb_spec (record_levelno record) (levelno h)) as [Hge|Hlt].
      + pose proof (write_fields term_width msg h) as (H1 & H2 & H3 & H4).
        repeat split; auto; try lia; intros; discriminate.
      + pose proof (transient_write_fields stream_raises encode_utf8
                      term_width msg h) as (H1 & H2 & H3).
        repeat split; auto; try lia; intros; discriminate.
    - cbn [fst]. repeat split; auto; intros; discriminate. }
  destruct Hbody as (Hl & Herr & Hlow & Hhigh & Hfail).
  split; [exact Hl|]. split; [exact Hlow|]. split; [exact Hhigh|].
  split; [exact Hfail|].
  rewrite <- Herr. exact He.
Qed.
End EmitFrame.

Lemma emit_frame_witness :
  let h' := fst (emit accepting encode_str plain_record fst
                   (fun r => Ok (snd r)) 10 (WARNING, lit "ALERT")
                   pending_bb) in
  levelno pending_bb <= fst (WARNING, lit "ALERT") /\
  need_cr h' = need_cr pending_bb /\ last h' = last pending_bb.
Proof.
  intros h'. split; [vm_compute; discriminate|].
  apply (proj1 (proj2 (proj2
           (emit_frame accepting encode_str plain_record fst
              (fun r => Ok (snd r)) 10 (WARNING, lit "ALERT") pending_bb)))
           (lit "ALERT"));
    [reflexivity | vm_compute; discriminate].
Defined.

(** ** The cursor over a whole run *)

Lemma run_ops_keeps_cursor
    (stream_raises : list event -> stream_op -> option exn)
    (encode_utf8 : pystr -> result pystr) (LogRecord : Type)
    (record_levelno : LogRecord -> Z) (format : LogRecord -> result pystr)
    (ops : list (handler_op LogRecord)) :
  forall h : handler,
    cursor_at_start h ->
    cursor_at_start
      (run_ops stream_raises encode_utf8 LogRecord record_levelno format ops
         h).
Proof.
  induction ops as [|op ops IH]; intros h Hcur; [exact Hcur|].
  apply IH. destruct op as [width record|].
  - now apply emit_cursor_at_start.
  - now apply close_cursor_at_start.
Qed.

(** X11: from a fresh handler, whatever records are emitted at whatever
    widths, wherever [close] is called between them and whatever the stream
    does, the cursor of the terminal is at the start of a row whenever no
    line is pending. *)
Theorem run_ops_cursor_at_start
    (stream_raises : list event -> stream_op -> option exn)
    (encode_utf8 : pystr -> result pystr) (LogRecord : Type)
    (record_levelno : LogRecord -> Z) (format : LogRecord -> result pystr)
    (ops : list (handler_op LogRecord)) (level : Z) :
  let h' := run_ops stream_raises encode_utf8 LogRecord record_levelno
              format ops (mkHandler level false [] [] []) in
  need_cr h' = false -> col (screen h') = 0%nat.
Proof.
  apply (run_ops_keeps_cursor stream_raises encode_utf8 LogRecord
           record_levelno format ops (mkHandler level false [] [] [])).
  intros _. reflexivity.
Qed.

Lemma run_ops_cursor_at_start_witness :
  let h' := run_ops rejecting_first encode_str plain_record fst
              (fun r => Ok (snd r))
              [OEmit 10 (DEBUG, lit "a"); OEmit 10 (DEBUG, lit "bb");
               OClose; OEmit 80 (WARNING, lit "ALERT")]
              (mkHandler WARNING false [] [] []) in
  need_cr h' = false /\ col (screen h') = 0%nat.
Proof.
  intros h'. split; [reflexivity|].
  apply (run_ops_cursor_at_start rejecting_first encode_str plain_record
           fst (fun r => Ok (snd r))
           [OEmit 10 (DEBUG, lit "a"); OEmit 10 (DEBUG, lit "bb");
            OClose; OEmit 80 (WARNING, lit "ALERT")] WARNING).
  reflexivity.
Defined.

(** ** The scrollback holds the permanent messages *)

Lemma write_pending_accepting (encode_utf8 : pystr -> result pystr)
    (term_width : Z) (data : pystr) (h : handler) :
  need_cr h = true ->
  ~ In PCT (last h) ->
  let columns := Z.max (Z.min term_width (len (last h))) (len data) in
  write accepting encode_utf8 term_width data h
  = (log_event
       (Done (SWrite (CR :: pad true (Z.to_nat columns) data
                         ++ LF :: last h)))
       h,
     Ok tt).
Proof.
  intros Hcr Hpct columns.
  assert (Hfmt : forall arg,
             py_format (write_fmt term_width data h) arg
             = Ok (CR :: pad true (Z.to_nat columns) arg ++ LF :: last h)).
  { intros arg. rewrite py_format_write_fmt by assumption.
    rewrite format_from_text; [reflexivity|].
    intros [Hlf|Hin]; [discriminate | contradiction]. }
  unfold write, bind, get.
  rewrite (try_write_fallback accepting encode_utf8 _ _ _ _ (Hfmt data)).
  apply fallback_accepting.
Qed.

Lemma write_line_accepting (encode_utf8 : pystr -> result pystr)
    (term_width : Z) (data : pystr) (h : handler) :
  need_cr h = false ->
  write accepting encode_utf8 term_width data h
  = (log_event (Done (SWrite (data ++ [LF]))) h, Ok tt).
Proof.
  intros Hcr. unfold write, bind, get, write_fmt. rewrite Hcr.
  rewrite (try_write_fallback accepting encode_utf8 _ _ _ _
             (py_format_line data)).
  apply fallback_accepting.
Qed.

Lemma feed_cons_CR (t : terminal) (s : pystr) :
  feed t (CR :: s) = feed (mkTerminal (scrollback t) (row t) 0) s.
Proof. reflexivity. Qed.

Lemma feed_cons_LF (t : terminal) (s : pystr) :
  feed t (LF :: s) = feed (mkTerminal (scrollback t ++ [row t]) [] 0) s.
Proof. reflexivity. Qed.

Lemma in_rstrip (c : ascii) (s : pystr) : In c (rstrip s) -> In c s.
Proof.
  induction s as [|x s IH]; [auto|].
  simpl. destruct (rstrip s) as [|y r].
  - destruct (is_space x); simpl; tauto.
  - intros [H|H]; [now left | right; now apply IH].
Qed.

(** A text written from the start of a row that shows [s] and spaces,
    when it is at least as long as [s], leaves itself and spaces. *)
Lemma overwrite_row (text s : pystr) (k : nat) :
  (length s <= length text)%nat ->
  exists j : nat,
    text ++ skipn (length text) (s ++ repeat SP k) = text ++ repeat SP j.
Proof.
  intros Hle. rewrite skipn_past_text by assumption. eexists. reflexivity.
Qed.

(** A permanent write of plain text on a tidy handler commits one row, the
    message and spaces, and leaves the handler tidy. *)
Lemma write_tidy (encode_utf8 : pystr -> result pystr) (term_width : Z)
    (data : pystr) (h : handler) :
  tidy term_width h ->
  plain data ->
  let r := write accepting encode_utf8 term_width data h in
  snd r = Ok tt /\
  tidy term_width (fst r) /\
  exists k : nat,
    scrollback (screen (fst r)) = scrollback (screen h) ++ [data ++ repeat SP k].
Proof.
  intros ([k Hrow] & Hplain & Hfit & Hpct & Hstart) Hdata.
  destruct (need_cr h) eqn:Hcr.
  - (* over the pending line *)
    cbv zeta. rewrite write_pending_accepting by assumption.
    cbn [fst snd]. split; [reflexivity|].
    set (columns := Z.max (Z.min term_width (len (last h))) (len data)).
    assert (Htext : plain (pad true (Z.to_nat columns) data))
      by (apply plain_app; [assumption | apply plain_spaces]).
    assert (Hlen : (length (last h)
                    <= length (pad true (Z.to_nat columns) data))%nat)
      by (rewrite length_pad; unfold columns, len in *; lia).
    assert (Hscreen :
              screen (log_event
                        (Done (SWrite (CR :: pad true (Z.to_nat columns) data
                                          ++ LF :: last h))) h)
              = mkTerminal
                  (scrollback (screen h)
                   ++ [pad true (Z.to_nat columns) data
                       ++ skipn (length (pad true (Z.to_nat columns) data))
                            (row (screen h))])
                  (last h) (length (last h))).
    { rewrite screen_log_write, feed_cons_CR, feed_app, feed_plain
        by assumption.
      rewrite feed_cons_LF. cbn [scrollback row].
      rewrite feed_plain by assumption.
      now rewrite skipn_nil, app_nil_r. }
    split.
    + unfold tidy. rewrite Hscreen. cbn [row col last log_event need_cr].
      split; [exists 0%nat; now rewrite app_nil_r|].
      split; [assumption|]. split; [assumption|]. split; [assumption|].
      intros Hfalse. congruence.
    + rewrite Hscreen. cbn [scrollback]. rewrite Hrow.
      destruct (overwrite_row (pad true (Z.to_nat columns) data) (last h) k
                  Hlen) as [j Hj].
      rewrite Hj. unfold pad. rewrite <- app_assoc, <- repeat_app.
      eexists. reflexivity.
  - (* no line pending: the row is blank *)
    destruct (Hstart eq_refl) as [Hlast Hcol].
    cbv zeta. rewrite write_line_accepting by assumption.
    cbn [fst snd]. split; [reflexivity|].
    assert (Hscreen :
              screen (log_event (Done (SWrite (data ++ [LF]))) h)
              = mkTerminal
                  (scrollback (screen h)
                   ++ [data ++ skipn (length data) (row (screen h))])
                  [] 0).
    { rewrite screen_log_write, feed_app.
      destruct (screen h) as [sb rw cl]. cbn [col] in Hcol. subst cl.
      rewrite feed_plain by assumption. reflexivity. }
    split.
    + unfold tidy. rewrite Hscreen. cbn [row col last log_event need_cr].
      rewrite Hlast in *. split; [now exists 0%nat|].
      split; [assumption|]. split; [assumption|]. split; [assumption|].
      intros _. now split.
    + rewrite Hscreen. cbn [scrollback]. rewrite Hrow, Hlast. cbn [app].
      rewrite skipn_spaces. eexists. reflexivity.
Qed.

Lemma tidy_cursor_at_start (term_width : Z) (h : handler) :
  tidy term_width h -> cursor_at_start h.
Proof.
  intros (_ & _ & _ & _ & Hstart) Hcr. now apply Hstart.
Qed.

(** A transient write of one line of plain text without percent sign, or
    of nothing, leaves the handler tidy. *)
Lemma transient_write_tidy (encode_utf8 : pystr -> result pystr) (term_width : Z)
    (data : pystr) (h : handler) :
  3 <= term_width ->
  tidy term_width h ->
  plain (rstrip data) ->
  ~ In PCT data ->
  tidy term_width
    (fst (transient_write accepting encode_utf8 term_width data h)).
Proof.
  intros H3 Htidy [Hcr Hlf] Hpct.
  pose proof (tidy_cursor_at_start _ _ Htidy) as Hcur.
  destruct Htidy as ([k Hrow] & Hplain & Hfit & Hlastpct & _).
  destruct (rstrip data) as [|c line'] eqn:Hstrip.
  - (* nothing to show *)
    rewrite transient_write_blank by assumption. cbn [fst].
    unfold tidy.
    rewrite screen_log_flush, screen_log_write, screen_before_lines, feed_CR
      by assumption.
    cbn [row col last log_event need_cr].
    rewrite last_before_lines, need_cr_before_lines.
    split; [now exists k|]. split; [assumption|]. split; [assumption|].
    split; [assumption|]. discriminate.
  - (* one line *)
    assert (Hne : rstrip data <> []) by (rewrite Hstrip; discriminate).
    rewrite <- Hstrip in Hcr, Hlf.
    rewrite transient_write_one_line by assumption. cbn [fst].
    set (shown := shorten term_width (rstrip data)).
    set (columns := Z.max (Z.min term_width (len (last h))) (len shown)).
    set (text := shown ++ repeat SP (Z.to_nat columns - length shown)).
    assert (Hshown : plain shown) by (apply plain_shorten; now split).
    assert (Hlen : len shown <= term_width) by now apply len_shorten.
    assert (Htext : (length (last h) <= length text)%nat).
    { unfold text. rewrite length_app, repeat_length.
      unfold columns, len in *. lia. }
    unfold tidy.
    rewrite screen_log_write, screen_set_last, screen_before_lines
      by assumption.
    rewrite feed_plain by (apply plain_app; [assumption | apply plain_spaces]).
    cbn [row col last log_event set_last need_cr].
    rewrite need_cr_before_lines.
    split.
    + rewrite Hrow.
      destruct (overwrite_row text (last h) k Htext) as [j Hj].
      rewrite Hj. unfold text. rewrite <- app_assoc, <- repeat_app.
      eexists. reflexivity.
    + split; [assumption|]. split; [assumption|]. split; [|discriminate].
      intros Hin. apply in_shorten in Hin as [Hin|Hin]; [|discriminate].
      apply Hpct. now apply in_rstrip.
Qed.

Lemma permanent_msgs_cons (threshold : Z) (r : plain_record)
    (records : list plain_record) :
  permanent_msgs threshold (r :: records)
  = (if fst r >=? threshold then [snd r] else [])
    ++ permanent_msgs threshold records.
Proof.
  unfold permanent_msgs. simpl. now destruct (fst r >=? threshold).
Qed.

(** One record on a tidy handler: the rows it commits are its message when
    it is permanent, none when it is transient. *)
Lemma emit_tidy (encode_utf8 : pystr -> result pystr) (term_width : Z)
    (r : plain_record) (h : handler) :
  3 <= term_width ->
  tidy term_width h ->
  shown_on_one_row (levelno h) r ->
  let h' := fst (emit accepting encode_utf8 plain_record fst
                   (fun r => Ok (snd r)) term_width r h) in
  tidy term_width h' /\ levelno h' = levelno h /\ errors h' = errors h /\
  exists rows,
    scrollback (screen h') = scrollback (screen h) ++ rows /\
    committed rows (if fst r >=? levelno h then [snd r] else []).
Proof.
  intros H3 Htidy Hr. unfold shown_on_one_row in Hr.
  unfold emit, emit_body, bind, lift, get.
  destruct (fst r >=? levelno h).
  - destruct (write_tidy encode_utf8 term_width (snd r) h Htidy Hr)
      as (Hok & Htidy' & k & Hsb).
    pose proof (write_fields accepting encode_utf8 term_width (snd r) h)
      as (Hl & _ & _ & He).
    destruct (write accepting encode_utf8 term_width (snd r) h)
      as [h1 [[]|e]]; cbn [fst snd] in *; [|discriminate].
    split; [assumption|]. split; [assumption|]. split; [assumption|].
    eexists. split; [exact Hsb|].
    constructor; [now exists k | constructor].
  - destruct Hr as [Hplain Hpct].
    pose proof (transient_write_tidy encode_utf8 term_width (snd r) h
                  H3 Htidy Hplain Hpct) as Htidy'.
    destruct (transient_write_scrollback encode_utf8 term_width (snd r) h)
      as [Hok Hsb].
    pose proof (transient_write_fields accepting encode_utf8 term_width
                  (snd r) h) as (_ & Hl & He).
    destruct (transient_write accepting encode_utf8 term_width (snd r) h)
      as [h1 [[]|e]]; cbn [fst snd] in *; [|discriminate].
    split; [assumption|]. split; [assumption|]. split; [assumption|].
    exists []. split; [now rewrite app_nil_r | constructor].
Qed.

Lemma emit_run_cons
    (stream_raises : list event -> stream_op -> option exn)
    (encode_utf8 : pystr -> result pystr) (LogRecord : Type)
    (record_levelno : LogRecord -> Z) (format : LogRecord -> result pystr)
    (term_width : Z) (r : LogRecord) (records : list LogRecord)
    (h : handler) :
  emit_run stream_raises encode_utf8 LogRecord record_levelno format
    term_width (r :: records) h
  = emit_run stream_raises encode_utf8 LogRecord record_levelno format
      term_width records
      (fst (emit stream_raises encode_utf8 LogRecord record_levelno format
              term_width r h)).
Proof. reflexivity. Qed.

Lemma emit_run_tidy (encode_utf8 : pystr -> result pystr) (term_width : Z)
    (records : list plain_record) :
  3 <= term_width ->
  forall h : handler,
    tidy term_width h ->
    Forall (shown_on_one_row (levelno h)) records ->
    let h' := emit_run accepting encode_utf8 plain_record fst
                (fun r => Ok (snd r)) term_width records h in
    tidy term_width h' /\ errors h' = errors h /\
    exists rows,
      scrollback (screen h') = scrollback (screen h) ++ rows /\
      committed rows (permanent_msgs (levelno h) records).
Proof.
  intros H3. induction records as [|r records IH]; intros h Htidy Hall.
  - split; [assumption|]. split; [reflexivity|].
    exists []. split; [now rewrite app_nil_r | constructor].
  - inversion Hall as [|? ? Hr Hrest]; subst.
    destruct (emit_tidy encode_utf8 term_width r h H3 Htidy Hr)
      as (Htidy1 & Hl1 & He1 & rows1 & Hsb1 & Hrows1).
    cbv zeta. rewrite emit_run_cons.
    set (h1 := fst (emit accepting encode_utf8 plain_record fst
                      (fun r => Ok (snd r)) term_width r h)) in *.
    rewrite <- Hl1 in Hrest.
    destruct (IH h1 Htidy1 Hrest) as (Htidy' & He' & rows & Hsb & Hrows).
    split; [exact Htidy'|]. split; [congruence|].
    exists (rows1 ++ rows). split.
    + rewrite Hsb, Hsb1. now rewrite app_assoc.
    + rewrite permanent_msgs_cons. apply Forall2_app; [assumption|].
      now rewrite <- Hl1.
Qed.

(** X12: on a terminal of at least 3 columns and a stream that accepts
    every call, after any records emitted from a fresh handler, where each
    permanent message is plain text and each transient message is one line
    of plain text (or nothing) once stripped and holds no percent sign, the
    scrollback is exactly the permanent messages, in order, each followed
    by spaces only; the current row shows [last_line] and spaces; no
    error was reported. *)
Theorem emit_run_scrollback (encode_utf8 : pystr -> result pystr) (term_width : Z)
    (level : Z) (records : list plain_record) :
  3 <= term_width ->
  Forall (shown_on_one_row level) records ->
  let h' := emit_run accepting encode_utf8 plain_record fst
              (fun r => Ok (snd r)) term_width records
              (mkHandler level false [] [] []) in
  committed (scrollback (screen h')) (permanent_msgs level records) /\
  (exists k : nat, row (screen h') = last h' ++ repeat SP k) /\
  errors h' = [].
Proof.
  intros H3 Hall.
  assert (Htidy : tidy term_width (mkHandler level false [] [] [])).
  { split; [now exists 0%nat|]. split; [split; intros []|].
    split; [cbn; lia|]. split; [intros []|]. intros _. now split. }
  destruct (emit_run_tidy encode_utf8 term_width records H3
              (mkHandler level false [] [] []) Htidy Hall)
    as (Htidy' & He & rows & Hsb & Hrows).
  cbv zeta. rewrite Hsb. cbn [app].
  split; [exact Hrows|]. split; [apply Htidy' | exact He].
Qed.

Lemma emit_run_scrollback_witness :
  let records :=
    [(DEBUG, lit "a"); (WARNING, lit "ALERT"); (DEBUG, lit "bb");
     (40, lit "100% wrong")] in
  let h' := emit_run accepting encode_str plain_record fst
              (fun r => Ok (snd r)) 10 records
              (mkHandler WARNING false [] [] []) in
  3 <= 10 /\
  Forall (shown_on_one_row WARNING) records /\
  committed (scrollback (screen h')) [lit "ALERT"; lit "100% wrong"] /\
  (exists k : nat, row (screen h') = last h' ++ repeat SP k) /\
  errors h' = [].
Proof.
  intros records h'.
  assert (Hall : Forall (shown_on_one_row WARNING) records).
  { repeat constructor; simpl;
      repeat match goal with
             | |- ~ _ => intros H
             | H : _ \/ _ |- _ => destruct H
             | H : False |- _ => destruct H
             | H : _ = _ |- _ => discriminate H
             end. }
  split; [lia|]. split; [exact Hall|].
  apply (emit_run_scrollback encode_str 10 WARNING records);
    [lia | exact Hall].
Defined.

(** The terminal after a permanent write over a pending line. *)
Lemma screen_write_pending (encode_utf8 : pystr -> result pystr) (term_width : Z)
    (data : pystr) (h : handler) :
  need_cr h = true ->
  ~ In PCT (last h) ->
  plain data -> plain (last h) ->
  let columns := Z.to_nat (Z.max (Z.min term_width (len (last h))) (len data)) in
  screen (fst (write accepting encode_utf8 term_width data h))
  = mkTerminal
      (scrollback (screen h)
       ++ [pad true columns data
           ++ skipn (length (pad true columns data)) (row (screen h))])
      (last h) (length (last h)).
Proof.
  intros Hcr Hpct Hdata Hlast columns.
  rewrite write_pending_accepting by assumption. cbn [fst].
  fold columns.
  assert (Htext : plain (pad true columns data))
    by (apply plain_app; [assumption | apply plain_spaces]).
  rewrite screen_log_write, feed_cons_CR, feed_app, feed_plain
    by assumption.
  rewrite feed_cons_LF. cbn [scrollback row].
  rewrite feed_plain by assumption.
  now rewrite skipn_nil, app_nil_r.
Qed.

(** X13: a permanent write of plain text over a pending line pushes the
    line down: the row it was on is committed as the message followed by
    spaces only, and the new row is exactly [last_line], with the cursor
    after it and the line still pending. *)
Theorem write_pushes_line_down (encode_utf8 : pystr -> result pystr)
    (term_width : Z) (data : pystr) (h : handler) :
  tidy term_width h ->
  need_cr h = true ->
  plain data ->
  let h' := fst (write accepting encode_utf8 term_width data h) in
  (exists k : nat,
      scrollback (screen h') = scrollback (screen h) ++ [data ++ repeat SP k])
  /\
  row (screen h') = last h /\
  col (screen h') = length (last h) /\
  need_cr h' = true /\ last h' = last h.
Proof.
  intros ([k Hrow] & Hplain & Hfit & Hpct & _) Hcr Hdata h'.
  unfold h'. rewrite screen_write_pending by assumption.
  cbn [scrollback row col].
  set (columns := Z.to_nat (Z.max (Z.min term_width (len (last h)))
                              (len data))).
  assert (Hlen : (length (last h) <= length (pad true columns data))%nat)
    by (rewrite length_pad; unfold columns, len in *; lia).
  split.
  - rewrite Hrow.
    destruct (overwrite_row (pad true columns data) (last h) k Hlen)
      as [j Hj].
    rewrite Hj. unfold pad. rewrite <- app_assoc, <- repeat_app.
    eexists. reflexivity.
  - split; [reflexivity|]. split; [reflexivity|].
    pose proof (write_fields accepting encode_utf8 term_width data h)
      as (_ & Hc & Hl & _).
    split; [congruence | exact Hl].
Qed.

Lemma write_pushes_line_down_witness :
  let h := fst (transient_write accepting encode_str 10
                  (lit "working...") fresh) in
  let h' := fst (write accepting encode_str 10 (lit "ALERT") h) in
  tidy 10 h /\ need_cr h = true /\ plain (lit "ALERT") /\
  (exists k : nat, scrollback (screen h') = [] ++ [lit "ALERT" ++ repeat SP k])
  /\
  row (screen h') = lit "working...".
Proof.
  intros h h'.
  assert (Hplain : forall s : string,
             forallb (fun c => negb (Ascii.eqb c CR || Ascii.eqb c LF)
                               && negb (Ascii.eqb c PCT)) (lit s) = true ->
             plain (lit s) /\ ~ In PCT (lit s)).
  { intros s Hs. rewrite forallb_forall in Hs.
    repeat split; intros Hin; apply Hs in Hin; discriminate. }
  assert (Htidy : tidy 10 h).
  { split; [now exists 0%nat|].
    destruct (Hplain "working..."%string eq_refl) as [Hp Hn].
    split; [exact Hp|]. split; [vm_compute; discriminate|].
    split; [exact Hn | discriminate]. }
  assert (Hdata : plain (lit "ALERT")) by now apply Hplain.
  split; [exact Htidy|]. split; [reflexivity|]. split; [exact Hdata|].
  pose proof (write_pushes_line_down encode_str 10 (lit "ALERT") h
                Htidy eq_refl Hdata) as (Hsb & Hrow & _).
  split; [exact Hsb | exact Hrow].
Defined.

(** ** Narrow terminals *)

(** X14: on a terminal of one or two columns, shortening a line longer than
    the width makes it longer: it loses its last [3 - width] characters
    and gains three dots. *)
Theorem shorten_narrow_grows (width : Z) (line : pystr) :
  0 < width < 3 ->
  width < len line ->
  shorten width line
  = firstn (Z.to_nat (len line + width - 3)) line ++ lit "..." /\
  len (shorten width line) = len line + width.
Proof.
  intros Hw Hlong.
  assert (Heq : shorten width line
                = firstn (Z.to_nat (len line + width - 3)) line ++ lit "...").
  { rewrite shorten_long by assumption. unfold slice_to.
    destruct (Z.ltb_spec (width - 3) 0); [|lia].
    do 2 f_equal. lia. }
  split; [exact Heq|].
  rewrite Heq, len_app. unfold len in *.
  rewrite length_firstn. simpl length. lia.
Qed.

Lemma shorten_narrow_grows_witness :
  0 < 2 < 3 /\ 2 < len (lit "abc") /\
  shorten 2 (lit "abc") = lit "ab..." /\
  len (shorten 2 (lit "abc")) = 5.
Proof.
  split; [lia|]. split; [reflexivity|].
  apply (shorten_narrow_grows 2 (lit "abc")); [lia | reflexivity].
Defined.

(** ** The last line of a message of several lines *)

Lemma rstrip_last_not_space (s t : pystr) (c : ascii) :
  rstrip s = t ++ [c] -> is_space c = false.
Proof.
  revert t. induction s as [|x s IH]; intros t; simpl.
  - destruct t; discriminate.
  - destruct (rstrip s) as [|y r] eqn:Hr.
    + destruct (is_space x) eqn:Hx.
      * destruct t; discriminate.
      * destruct t as [|? [|? ?]]; intros [= <-]; try assumption;
          discriminate.
    + destruct t as [|x' t']; [discriminate|].
      intros [= _ Ht]. now apply (IH t').
Qed.

Lemma split_lines_app_LF (s l : pystr) :
  ~ In LF l -> split_lines (s ++ LF :: l) = split_lines s ++ [l].
Proof.
  intros Hl. induction s as [|c s IH].
  - simpl. now rewrite split_lines_plain.
  - simpl. rewrite IH. destruct (Ascii.eqb c LF); [reflexivity|].
    destruct (split_lines_cons s) as (l0 & ls & ->). reflexivity.
Qed.

Lemma for_each_app {A} (body : A -> M unit) (xs ys : list A) (h : handler) :
  for_each (xs ++ ys) body h
  = (for_each xs body ;; for_each ys body) h.
Proof.
  revert h. induction xs as [|x xs IH]; intros h; [reflexivity|].
  cbn [app for_each]. unfold bind in *.
  destruct (body x h) as [h1 [u|e]]; [apply IH | reflexivity].
Qed.

(** X15: after a transient write that returned normally, whatever the
    stream did, of a message of several lines, [last_line] is the text
    after the last newline of the stripped message, as shown. *)
Theorem transient_write_last_line
    (stream_raises : list event -> stream_op -> option exn)
    (encode_utf8 : pystr -> result pystr) (term_width : Z) (data s l : pystr)
    (h h' : handler) :
  rstrip data = s ++ LF :: l ->
  ~ In LF l ->
  transient_write stream_raises encode_utf8 term_width data h = (h', Ok tt) ->
  l <> [] /\ last h' = shorten term_width l.
Proof.
  intros Hstrip Hlf Hrun.
  assert (Hne : l <> []).
  { intros ->. apply (rstrip_last_not_space data s LF) in Hstrip.
    discriminate. }
  split; [exact Hne|].
  assert (Hloop : forall g,
             for_each (split_lines (rstrip data))
               (transient_write_line stream_raises encode_utf8 term_width) g
             = (h', Ok tt) ->
             last h' = shorten term_width l).
  { intros g. rewrite Hstrip, split_lines_app_LF, for_each_app by assumption.
    unfold bind at 1.
    destruct (for_each (split_lines s) _ g) as [g1 [u|e]]; [|discriminate].
    cbn [for_each]. unfold bind, ret.
    pose proof (transient_write_line_fields stream_raises encode_utf8
                  term_width l g1) as (_ & _ & _ & Hlast).
    destruct (transient_write_line stream_raises encode_utf8 term_width l g1)
      as [g2 [u'|e]]; [|discriminate].
    intros [= <-]. cbn [fst] in Hlast. rewrite Hlast.
    destruct l; [contradiction | reflexivity]. }
  unfold transient_write, bind, get in Hrun.
  destruct (need_cr h).
  - destruct (stream_write stream_raises [CR] h) as [h1 [u|e]];
      [now apply (Hloop h1) | discriminate].
  - unfold modify in Hrun. now apply (Hloop (set_need_cr true h)).
Qed.

Lemma transient_write_last_line_witness :
  let data := lit "step 1" ++ LF :: LF :: lit "step 2 of 2  " in
  let h' := mkHandler WARNING true (lit "step 2 ...")
              [Done (SWrite [CR]); Done (SWrite (lit "step 1"));
               Done (SWrite [CR]); Done SFlush;
               Done (SWrite (lit "step 2 ..."))] [] in
  rstrip data = (lit "step 1" ++ [LF]) ++ LF :: lit "step 2 of 2" /\
  ~ In LF (lit "step 2 of 2") /\
  transient_write accepting encode_str 10 data pending_bb = (h', Ok tt) /\
  last h' = shorten 10 (lit "step 2 of 2").
Proof.
  intros data h'.
  assert (Hlf : ~ In LF (lit "step 2 of 2")).
  { intros Hin.
    assert (Hall : forallb (fun c => negb (Ascii.eqb c LF))
                     (lit "step 2 of 2") = true) by reflexivity.
    rewrite forallb_forall in Hall. apply Hall in Hin. discriminate. }
  split; [reflexivity|]. split; [exact Hlf|]. split; [reflexivity|].
  apply (transient_write_last_line accepting encode_str 10 data
           (lit "step 1" ++ [LF]) (lit "step 2 of 2") pending_bb h');
    [reflexivity | exact Hlf | reflexivity].
Defined.

(** ** The first transient write *)

(** X16: on a handler as [__init__] leaves it, whatever its threshold, the
    first transient write of a message of one non-empty line makes one call
    on the stream: the line as shown, with no carriage return before it and
    no padding after it. *)
Theorem first_transient_write (encode_utf8 : pystr -> result pystr)
    (level : level_arg) (term_width : Z) (data : pystr) (h : handler) :
  init level = Ok h ->
  rstrip data <> [] ->
  ~ In LF (rstrip data) ->
  let shown := shorten term_width (rstrip data) in
  transient_write accepting encode_utf8 term_width data h
  = (mkHandler (levelno h) true shown [Done (SWrite shown)] [], Ok tt).
Proof.
  intros Hinit Hne Hlf shown.
  assert (Hh : h = mkHandler (levelno h) false [] [] []).
  { unfold init in Hinit. destruct level as [n|name].
    - now injection Hinit as <-.
    - destruct (_levelNames name); [now injection Hinit as <- | discriminate]. }
  rewrite transient_write_one_line by assumption. fold shown.
  rewrite Hh. cbn [last levelno].
  replace (Z.to_nat (Z.max (Z.min term_width (len [])) (len shown))
           - length shown)%nat with 0%nat
    by (unfold len; simpl length; lia).
  cbn [repeat]. rewrite app_nil_r. reflexivity.
Qed.

Lemma first_transient_write_witness :
  init (LevelName "ERROR") = Ok (mkHandler 40 false [] [] []) /\
  rstrip (lit "loading  ") <> [] /\
  ~ In LF (rstrip (lit "loading  ")) /\
  transient_write accepting encode_str 80 (lit "loading  ")
    (mkHandler 40 false [] [] [])
  = (mkHandler 40 true (lit "loading") [Done (SWrite (lit "loading"))] [],
     Ok tt).
Proof.
  assert (Hlf : ~ In LF (rstrip (lit "loading  "))).
  { intros Hin.
    assert (Hall : forallb (fun c => negb (Ascii.eqb c LF))
                     (rstrip (lit "loading  ")) = true) by reflexivity.
    rewrite forallb_forall in Hall. apply Hall in Hin. discriminate. }
  split; [reflexivity|]. split; [discriminate|]. split; [exact Hlf|].
  apply (first_transient_write encode_str (LevelName "ERROR") 80
           (lit "loading  ") (mkHandler 40 false [] [] []));
    [reflexivity | discriminate | exact Hlf].
Defined.
